(** * pubmed-fetcher: the affiliation classifier and the paper views

    A shallow embedding of [src/pubmed_fetcher/models.py] and
    [src/pubmed_fetcher/parser.py].

    Python [str] values are lists of characters whose code points are
    below 256; the [str] methods the program calls are modelled in
    module [PyStr] with Python's semantics on such text.  The two
    keyword tables that [models.py] imports from [.utils] are section
    variables of the embedding; concrete tables are only used to
    evaluate the code on examples. *)

From Stdlib Require Import List Ascii String NArith ZArith Bool Lia.
From Stdlib Require Import Sorting.Sorted.
Import ListNotations.

Abbreviation str := (list ascii).

(** The empty string. *)
Abbreviation empty_str := (@nil ascii).

(** [py "text"] is the Python literal ["text"]. *)
Definition py (s : string) : str := list_ascii_of_string s.

(* ================================================================== *)
(** ** The [str] methods used by the program *)

Module PyStr.

Definition code (c : ascii) : N := N_of_ascii c.

(** [c.isspace()] for a code point below 256. *)
Definition isspace (c : ascii) : bool :=
  let n := code c in
  (((9 <=? n) && (n <=? 13)) || ((28 <=? n) && (n <=? 32))
   || (n =? 133) || (n =? 160))%N.

(** [c.lower()] for a code point below 256: the ASCII capitals and the
    Latin-1 capitals (all of 192..222 but the multiplication sign). *)
Definition lower_char (c : ascii) : ascii :=
  let n := code c in
  if (((65 <=? n) && (n <=? 90))
      || ((192 <=? n) && (n <=? 222) && negb (n =? 215)))%N
  then ascii_of_N (n + 32) else c.

(** [s.lower()] *)
Definition lower (s : str) : str := map lower_char s.

(** [s.startswith(p)] *)
Fixpoint startswith (s p : str) {struct p} : bool :=
  match p, s with
  | [], _ => true
  | _ :: _, [] => false
  | a :: p', b :: s' => Ascii.eqb a b && startswith s' p'
  end.

(** [sub in s] *)
Fixpoint contains (s sub : str) : bool :=
  startswith s sub
  || match s with
     | [] => false
     | _ :: s' => contains s' sub
     end.

(** [s.find(sub)]: the lowest index where [sub] occurs, [-1] if none. *)
Fixpoint find (s sub : str) : Z :=
  if startswith s sub then 0%Z
  else match s with
       | [] => (-1)%Z
       | _ :: s' => let r := find s' sub in
                    if (r =? -1)%Z then (-1)%Z else (r + 1)%Z
       end.

(** [s.split()]: the maximal runs of non-whitespace characters. *)
Fixpoint split (s : str) : list str :=
  match s with
  | [] => []
  | c :: s' =>
      if isspace c then split s'
      else match s' with
           | [] => [[c]]
           | d :: _ =>
               if isspace d then [c] :: split s'
               else match split s' with
                    | w :: ws => (c :: w) :: ws
                    | [] => [[c]]
                    end
           end
  end.

(** [s.split(sep)] for a one-character separator. *)
Fixpoint split_on (sep : ascii) (s : str) : list str :=
  match s with
  | [] => [[]]
  | c :: s' =>
      if Ascii.eqb c sep then [] :: split_on sep s'
      else match split_on sep s' with
           | p :: ps => (c :: p) :: ps
           | [] => [[c]]
           end
  end.

Fixpoint lstrip_by (f : ascii -> bool) (s : str) : str :=
  match s with
  | [] => []
  | c :: s' => if f c then lstrip_by f s' else s
  end.

Definition strip_by (f : ascii -> bool) (s : str) : str :=
  rev (lstrip_by f (rev (lstrip_by f s))).

(** [s.strip()] *)
Definition strip (s : str) : str := strip_by isspace s.

Definition mem_char (chars : str) (c : ascii) : bool :=
  existsb (Ascii.eqb c) chars.

(** [s.strip(chars)] *)
Definition strip_chars (chars : str) (s : str) : str :=
  strip_by (mem_char chars) s.

(** [s.replace(old, new)]: the occurrences of [old] are replaced from
    the left, without overlap; [skip] counts the characters of the
    occurrence just replaced that are still to be passed over. *)
Fixpoint replace_from (old new : str) (skip : nat) (s : str) : str :=
  match s with
  | [] => []
  | c :: s' =>
      match skip with
      | S k => replace_from old new k s'
      | O => if startswith s old
             then new ++ replace_from old new (List.length old - 1) s'
             else c :: replace_from old new 0 s'
      end
  end.

Definition replace (s old new : str) : str :=
  match old with
  | [] => new ++ flat_map (fun c => c :: new) s
  | _ :: _ => replace_from old new 0 s
  end.

(** [sep.join(parts)] *)
Fixpoint join (sep : str) (parts : list str) : str :=
  match parts with
  | [] => []
  | [p] => p
  | p :: ps => p ++ sep ++ join sep ps
  end.

(** [x in xs] for a list of strings. *)
Definition str_eqb (a b : str) : bool :=
  if list_eq_dec ascii_dec a b then true else false.

Definition mem (x : str) (xs : list str) : bool := existsb (str_eqb x) xs.

(** [bool(s)]: only the empty string is falsy. *)
Definition truthy (s : str) : bool :=
  match s with [] => false | _ :: _ => true end.

(** [bool(o)] for an [Optional[str]]. *)
Definition truthy_opt (o : option str) : bool :=
  match o with None => false | Some s => truthy s end.

(** [a < b] on strings: code points compared from the left. *)
Fixpoint ltb (a b : str) : bool :=
  match a, b with
  | [], [] => false
  | [], _ :: _ => true
  | _ :: _, [] => false
  | x :: a', y :: b' =>
      if (code x <? code y)%N then true
      else if (code y <? code x)%N then false
      else ltb a' b'
  end.

Definition leb (a b : str) : bool := negb (ltb b a).

End PyStr.

(* ================================================================== *)
(** ** models.py *)

(** [float('inf')] or a character offset: the two kinds of value that
    [academic_pos] and [company_pos] hold. *)
Inductive position : Type :=
| Inf : position
| Offset : Z -> position.

(** [min(acc, pos)] *)
Definition position_min (acc : position) (pos : Z) : position :=
  match acc with
  | Inf => Offset pos
  | Offset a => Offset (Z.min a pos)
  end.

(** [a < b] *)
Definition position_ltb (a b : position) : bool :=
  match a, b with
  | Inf, _ => false
  | Offset _, Inf => true
  | Offset x, Offset y => (x <? y)%Z
  end.

Record Author : Type := mkAuthor {
  name : str;
  affiliation : option str;
  email : option str;
  is_corresponding : bool;
  is_non_academic : bool;
  company_name : option str
}.

Definition set_is_non_academic (b : bool) (a : Author) : Author :=
  mkAuthor (name a) (affiliation a) (email a) (is_corresponding a) b (company_name a).

Definition set_company_name (c : option str) (a : Author) : Author :=
  mkAuthor (name a) (affiliation a) (email a) (is_corresponding a) (is_non_academic a) c.

(** The words of the list literal in [_extract_company_name]. *)
Definition SKIP_WORDS : list str :=
  map py ["department"; "division"; "unit"; "group"; "team"; "laboratory";
          "research"; "development"; "r&d"; "@"; "email"; "address"; "tel"; "fax"]%string.

Section Models.

(** The tables imported from [.utils]. *)
Variable ACADEMIC_KEYWORDS : list str.
Variable COMPANY_KEYWORDS : list str.

(** [any(keyword in affiliation_lower for keyword in ACADEMIC_KEYWORDS)] *)
Definition has_academic (affiliation_lower : str) : bool :=
  existsb (fun keyword => PyStr.contains affiliation_lower keyword) ACADEMIC_KEYWORDS.

(** [keyword in text.replace('.', '').split()] *)
Definition is_token (keyword text : str) : bool :=
  PyStr.mem keyword (PyStr.split (PyStr.replace text (py ".") empty_str)).

(** [f" {keyword} " in f" {affiliation_lower} "] *)
Definition space_bounded (keyword affiliation_lower : str) : bool :=
  PyStr.contains (py " " ++ affiliation_lower ++ py " ") (py " " ++ keyword ++ py " ").

Definition has_company (affiliation_lower : str) : bool :=
  existsb (fun keyword => is_token keyword affiliation_lower
                          || space_bounded keyword affiliation_lower)
          COMPANY_KEYWORDS.

(** The two [for keyword in ...: pos = affiliation_lower.find(keyword)]
    loops, started from [float('inf')]. *)
Definition earliest_pos (keywords : list str) (affiliation_lower : str) : position :=
  fold_left (fun acc keyword =>
               let pos := PyStr.find affiliation_lower keyword in
               if (pos =? -1)%Z then acc else position_min acc pos)
            keywords Inf.

Definition _check_non_academic_affiliation (self : Author) : bool :=
  match affiliation self with
  | None => false
  | Some aff =>
      if negb (PyStr.truthy aff) then false
      else
        let affiliation_lower := PyStr.lower aff in
        if has_academic affiliation_lower && has_company affiliation_lower then
          let academic_pos := earliest_pos ACADEMIC_KEYWORDS affiliation_lower in
          let company_pos := earliest_pos COMPANY_KEYWORDS affiliation_lower in
          position_ltb company_pos academic_pos
        else has_company affiliation_lower
  end.

(** [p and not any(skip in p.lower() for skip in [...])] *)
Definition keep_part (p : str) : bool :=
  PyStr.truthy p
  && negb (existsb (fun skip => PyStr.contains (PyStr.lower p) skip) SKIP_WORDS).

(** The clean-up applied to the chosen part. *)
Definition clean_name (part : str) : str :=
  let company_name := PyStr.strip_chars (py "., ") part in
  if PyStr.contains company_name (py "@")
  then PyStr.join (py " ")
         (filter (fun word => negb (PyStr.contains word (py "@")))
                 (PyStr.split company_name))
  else company_name.

(** [any(keyword in part_lower.replace('.', '').split() for keyword in COMPANY_KEYWORDS)] *)
Definition part_has_keyword (part : str) : bool :=
  existsb (fun keyword => is_token keyword (PyStr.lower part)) COMPANY_KEYWORDS.

Definition _extract_company_name (self : Author) : option str :=
  match affiliation self with
  | None => None
  | Some aff =>
      if negb (PyStr.truthy aff) || negb (is_non_academic self) then None
      else
        let parts := map PyStr.strip (PyStr.split_on "," aff) in
        let parts := filter keep_part parts in
        match parts with
        | [] => None
        | first :: _ =>
            match List.find part_has_keyword parts with
            | Some part => Some (clean_name part)
            | None => Some (clean_name first)
            end
        end
  end.

Definition __post_init__ (self : Author) : Author :=
  if PyStr.truthy_opt (affiliation self) then
    let self := set_is_non_academic (_check_non_academic_affiliation self) self in
    if is_non_academic self
    then set_company_name (_extract_company_name self) self
    else self
  else self.

(** [Author(name, affiliation, email, is_corresponding, is_non_academic,
    company_name)]: the dataclass stores the six arguments and runs
    [__post_init__]. *)
Definition new_Author (name : str) (affiliation email : option str)
    (is_corresponding is_non_academic : bool) (company_name : option str) : Author :=
  __post_init__ (mkAuthor name affiliation email is_corresponding
                          is_non_academic company_name).

(** [Author(name=..., affiliation=..., email=..., is_corresponding=...)],
    the derived fields left at their defaults. *)
Definition Author_ (name : str) (affiliation email : option str)
    (is_corresponding : bool) : Author :=
  new_Author name affiliation email is_corresponding false None.

(** The classifier of the affiliation text: the two derived fields of a
    freshly constructed author. *)
Definition classify (affiliation : option str) : bool * option str :=
  let a := Author_ empty_str affiliation None false in
  (is_non_academic a, company_name a).

End Models.

Record date : Type := mkDate { year : Z; month : Z; day : Z }.

Record Paper : Type := mkPaper {
  pubmed_id : str;
  title : str;
  publication_date : date;
  authors : list Author;
  abstract : option str
}.

Definition non_academic_authors (self : Paper) : list Author :=
  filter is_non_academic (authors self).

(** A set comprehension, as the list of its distinct elements. *)
Definition set_of (l : list str) : list str :=
  nodup (list_eq_dec ascii_dec) l.

Fixpoint insert_sorted (x : str) (l : list str) : list str :=
  match l with
  | [] => [x]
  | y :: l' => if PyStr.leb x y then x :: l else y :: insert_sorted x l'
  end.

(** [sorted(l)] *)
Definition sorted (l : list str) : list str := fold_right insert_sorted [] l.

Definition company_affiliations (self : Paper) : list str :=
  let companies :=
    set_of (flat_map (fun author => match company_name author with
                                    | Some c => [c]
                                    | None => []
                                    end)
                     (non_academic_authors self)) in
  sorted companies.

Definition corresponding_author_email (self : Paper) : option str :=
  match List.find (fun author => is_corresponding author
                                 && PyStr.truthy_opt (email author))
                  (authors self) with
  | Some author => email author
  | None =>
      match List.find (fun author => PyStr.truthy_opt (email author))
                      (authors self) with
      | Some author => email author
      | None => None
      end
  end.

(* ================================================================== *)
(** ** parser.py *)

(** The raw records handed to the parser.  A dictionary is a record of
    the keys the parser reads; [None] is an absent key. *)

(** An element of [author_data["AffiliationInfo"]]: a dictionary, with or
    without the key "Affiliation", or a value of another type. *)
Inductive aff_info : Type :=
| InfoDict : option str -> aff_info
| InfoOther : aff_info.

(** [author_data.get("affiliation")]: a list (its elements strings or
    [None]), a string, or absent. *)
Inductive aff_field : Type :=
| AffAbsent : aff_field
| AffList : list (option str) -> aff_field
| AffStr : str -> aff_field.

Record author_data : Type := mkAuthorData {
  ad_name : option str;
  ad_AffiliationInfo : option (list aff_info);
  ad_affiliation : aff_field;
  ad_is_corresponding : option bool
}.

(** An element of [paper_data["authors"]]: a dictionary that
    [parse_author] reads without an exception, or a value on which it
    raises one (a value that is not a dictionary, a dictionary whose
    "AffiliationInfo" holds an "Affiliation" that is not text). *)
Inductive author_entry : Type :=
| AuthorRecord : author_data -> author_entry
| AuthorOther : author_entry.

(** The dictionary of a paper.  [pd_uid] is the text that [str] makes of
    the value under "uid".  [pd_title] is [None] when the key is absent
    and when its value is not text: in both cases [parse_paper] returns
    [None], through its first test or through its outer [except].
    [pd_abstract] is [None] for an absent key and [Some None] for a key
    that holds [None].  The date is absent or text and the authors are
    absent or a list, so that nothing else reaches the outer [except]. *)
Record paper_data : Type := mkPaperData {
  pd_uid : option str;
  pd_title : option str;
  pd_pubdate : option str;
  pd_authors : option (list author_entry);
  pd_abstract : option (option str)
}.

(** [d.get(key, default)] *)
Definition get {A : Type} (o : option A) (default : A) : A :=
  match o with Some v => v | None => default end.

(** The stripped, non-empty texts of the "Affiliation" entries. *)
Definition info_affiliations (infos : list aff_info) : list str :=
  flat_map (fun aff_info =>
              match aff_info with
              | InfoDict (Some text) =>
                  let aff_text := PyStr.strip text in
                  if PyStr.truthy aff_text then [aff_text] else []
              | _ => []
              end) infos.

(** [[aff.strip() for aff in l if aff and aff.strip()]] *)
Definition list_affiliations (l : list (option str)) : list str :=
  flat_map (fun aff =>
              match aff with
              | Some a => if PyStr.truthy a && PyStr.truthy (PyStr.strip a)
                          then [PyStr.strip a] else []
              | None => []
              end) l.

(** [affiliation = "; ".join(affiliations)] when the list is not empty. *)
Definition join_affiliations (affiliations : list str) : option str :=
  match affiliations with
  | [] => None
  | _ :: _ => Some (PyStr.join (py "; ") affiliations)
  end.

Definition raw_affiliation (d : author_data) : option str :=
  let affiliation :=
    match ad_AffiliationInfo d with
    | Some infos => join_affiliations (info_affiliations infos)
    | None => None
    end in
  if negb (PyStr.truthy_opt affiliation) then
    match ad_affiliation d with
    | AffList l =>
        match join_affiliations (list_affiliations l) with
        | Some a => Some a
        | None => affiliation
        end
    | AffStr s => Some (PyStr.strip s)
    | AffAbsent => affiliation
    end
  else affiliation.

(** [email_candidate.split("@")[1]] *)
Definition after_at (email_candidate : str) : str :=
  nth 1 (PyStr.split_on "@" email_candidate) [].

(** The body of [for part in parts], up to [break]: the email and the
    cleaned affiliation of the first part that passes both tests. *)
Fixpoint scan_parts (affiliation : str) (parts : list str) : option (str * str) :=
  match parts with
  | [] => None
  | part :: rest =>
      if PyStr.contains part (py "@") && PyStr.contains part (py ".") then
        let email_candidate :=
          PyStr.lower (PyStr.strip_chars (py ".,()<>[]{}") part) in
        if PyStr.contains email_candidate (py "@")
           && PyStr.contains (after_at email_candidate) (py ".")
        then Some (email_candidate,
                   PyStr.strip (PyStr.replace affiliation part empty_str))
        else scan_parts affiliation rest
      else scan_parts affiliation rest
  end.

(** The values of [affiliation] and [email] after the extraction. *)
Definition extract_email (affiliation : option str) : option str * option str :=
  match affiliation with
  | None => (None, None)
  | Some aff =>
      if PyStr.truthy aff then
        match scan_parts aff (PyStr.split aff) with
        | Some (email, aff') => (Some aff', Some email)
        | None => (affiliation, None)
        end
      else (affiliation, None)
  end.

Definition CORRESPONDING_TERMS : list str :=
  map py ["corresponding"; "correspondence"; "whom correspondence"]%string.

(** [affiliation and any(term in affiliation.lower() for term in [...])],
    as a truth value. *)
Definition mentions_correspondence (affiliation : option str) : bool :=
  match affiliation with
  | None => false
  | Some aff =>
      PyStr.truthy aff
      && existsb (fun term => PyStr.contains (PyStr.lower aff) term)
                 CORRESPONDING_TERMS
  end.

Section Parser.

Variable ACADEMIC_KEYWORDS : list str.
Variable COMPANY_KEYWORDS : list str.

(** [datetime.strptime(date_str, format).date()]; [None] stands for the
    [ValueError] it raises on text that does not match the format. *)
Variable strptime : str -> str -> option date.

Definition parse_date (date_str : str) : date :=
  match strptime date_str (py "%Y-%m-%d") with
  | Some d => d
  | None =>
      match strptime date_str (py "%Y-%b-%d") with
      | Some d => d
      | None => mkDate 1900 1 1
      end
  end.

Definition parse_author (d : author_data) : Author :=
  let name := get (ad_name d) empty_str in
  let name := if negb (PyStr.truthy name) then py "Unknown Author" else name in
  let '(affiliation, email) := extract_email (raw_affiliation d) in
  let is_corresponding :=
    PyStr.truthy_opt email
    || mentions_correspondence affiliation
    || get (ad_is_corresponding d) false in
  Author_ ACADEMIC_KEYWORDS COMPANY_KEYWORDS name affiliation email is_corresponding.

(** The body of the inner [try] of [parse_paper]: the authors that one
    pass of the loop appends, none when [parse_author] raises and the
    [except] goes on to the next record. *)
Definition parse_author_entry (entry : author_entry) : list Author :=
  match entry with
  | AuthorRecord author_data => [parse_author author_data]
  | AuthorOther => []
  end.

Definition parse_paper (d : paper_data) : option Paper :=
  let pubmed_id := get (pd_uid d) empty_str in
  let title := PyStr.strip (get (pd_title d) empty_str) in
  if negb (PyStr.truthy title) || negb (PyStr.truthy pubmed_id) then None
  else
    let pub_date_str := get (pd_pubdate d) empty_str in
    let pub_date :=
      if negb (PyStr.truthy pub_date_str) then mkDate 1900 1 1
      else parse_date pub_date_str in
    let authors := flat_map parse_author_entry (get (pd_authors d) []) in
    Some (mkPaper pubmed_id title pub_date authors
                  (get (pd_abstract d) (Some empty_str))).

End Parser.

(* ================================================================== *)
(** ** The library function and the keyword tables used on examples *)

(** [datetime.strptime] on the two formats of [parse_date], in the C
    locale: four digits, a dash, the month, a dash, the day, and nothing
    after it; the date must exist in the calendar. *)
Module Strptime.

Definition is_digit (c : ascii) : bool :=
  ((48 <=? PyStr.code c) && (PyStr.code c <=? 57))%N.

Definition digit (c : ascii) : Z := (Z.of_N (PyStr.code c) - 48)%Z.

Definition in_range (lo hi : Z) (c : ascii) : bool :=
  is_digit c && (lo <=? digit c)%Z && (digit c <=? hi)%Z.

Definition is_char (x c : ascii) : bool := Ascii.eqb x c.

(** [%Y]: [\d\d\d\d], then the dash of the format. *)
Definition match_year (s : str) : option (Z * str) :=
  match s with
  | a :: b :: c :: d :: dash :: rest =>
      if is_digit a && is_digit b && is_digit c && is_digit d
         && is_char "-" dash
      then Some ((1000 * digit a + 100 * digit b + 10 * digit c + digit d)%Z, rest)
      else None
  | _ => None
  end.

(** [%m]: [1[0-2]|0[1-9]|[1-9]], then the dash of the format. *)
Definition match_month (s : str) : option (Z * str) :=
  match s with
  | a :: b :: rest =>
      match rest with
      | dash :: rest' =>
          if ((is_char "1" a && in_range 0 2 b) || (is_char "0" a && in_range 1 9 b))
             && is_char "-" dash
          then Some ((10 * digit a + digit b)%Z, rest')
          else if in_range 1 9 a && is_char "-" b then Some (digit a, rest)
          else None
      | [] => if in_range 1 9 a && is_char "-" b then Some (digit a, rest) else None
      end
  | _ => None
  end.

Definition MONTHS : list str :=
  map py ["jan"; "feb"; "mar"; "apr"; "may"; "jun";
          "jul"; "aug"; "sep"; "oct"; "nov"; "dec"]%string.

Fixpoint index_of (x : str) (l : list str) (i : Z) : option Z :=
  match l with
  | [] => None
  | y :: l' => if PyStr.str_eqb x y then Some i else index_of x l' (i + 1)%Z
  end.

(** [%b]: a month abbreviation, letter case ignored, then the dash. *)
Definition match_month_name (s : str) : option (Z * str) :=
  match s with
  | a :: b :: c :: dash :: rest =>
      if is_char "-" dash then
        match index_of (PyStr.lower [a; b; c]) MONTHS 1 with
        | Some m => Some (m, rest)
        | None => None
        end
      else None
  | _ => None
  end.

(** [%d]: [3[0-1]|[1-2]\d|0[1-9]|[1-9]| [1-9]], then the end of the text. *)
Definition match_day (s : str) : option Z :=
  match s with
  | [a] => if in_range 1 9 a then Some (digit a) else None
  | [a; b] =>
      if (is_char "3" a && in_range 0 1 b) || (in_range 1 2 a && is_digit b)
         || (is_char "0" a && in_range 1 9 b)
      then Some (10 * digit a + digit b)%Z
      else if is_char " " a && in_range 1 9 b then Some (digit b)
      else None
  | _ => None
  end.

Definition is_leap (y : Z) : bool :=
  ((y mod 4 =? 0) && (negb (y mod 100 =? 0) || (y mod 400 =? 0)))%Z.

Definition days_in_month (y m : Z) : Z :=
  (if m =? 2 then (if is_leap y then 29 else 28)
   else if (m =? 4) || (m =? 6) || (m =? 9) || (m =? 11) then 30
   else 31)%Z.

(** [datetime.date(y, m, d)], [None] for its [ValueError]. *)
Definition make_date (y m d : Z) : option date :=
  if ((1 <=? y) && (1 <=? m) && (m <=? 12) && (1 <=? d) && (d <=? days_in_month y m))%Z
  then Some (mkDate y m d) else None.

Definition parse_with (month : str -> option (Z * str)) (s : str) : option date :=
  match match_year s with
  | Some (y, s1) =>
      match month s1 with
      | Some (m, s2) =>
          match match_day s2 with
          | Some d => make_date y m d
          | None => None
          end
      | None => None
      end
  | None => None
  end.

Definition strptime (date_str format : str) : option date :=
  if PyStr.str_eqb format (py "%Y-%m-%d") then parse_with match_month date_str
  else if PyStr.str_eqb format (py "%Y-%b-%d") then parse_with match_month_name date_str
  else None.

End Strptime.

(** Modelled from the spec: the module [utils.py] that defines the two
    keyword tables is not part of the sources.  The specification names
    some keywords of each table and leaves both lists open; the tables
    below hold the keywords it names and nothing else.  They are a
    sample on which the code is run, not the tables of the program: the
    theorems on the classifier are stated for arbitrary tables. *)
Definition ACADEMIC_KEYWORDS : list str :=
  map py ["university"; "institute"; "school"; "hospital"]%string.

Definition COMPANY_KEYWORDS : list str :=
  map py ["inc"; "ltd"; "corp"; "pharma"; "biotech"; "gmbh"]%string.

(* ================================================================== *)
(** ** Predicates of the specification *)

(** [sub] occurs in [s] at character offset [i]. *)
Definition occurs_at (s sub : str) (i : nat) : Prop :=
  exists pre post, s = pre ++ sub ++ post /\ List.length pre = i.

(** [i] is the earliest character offset in [text] of any keyword. *)
Definition earliest_offset (keywords : list str) (text : str) (i : nat) : Prop :=
  (exists k, In k keywords /\ occurs_at text k i)
  /\ forall k j, In k keywords -> occurs_at text k j -> i <= j.

(** [text] ends, respectively starts, at a word boundary. *)
Definition ends_at_boundary (text : str) : Prop :=
  text = [] \/ exists c rest, text = rest ++ [c] /\ PyStr.isspace c = true.

Definition starts_at_boundary (text : str) : Prop :=
  text = [] \/ exists c rest, text = c :: rest /\ PyStr.isspace c = true.

(** [word] is a whole token of [text]: a non-empty run without
    whitespace, with whitespace or an end of the text on both sides. *)
Definition whole_token (word text : str) : Prop :=
  word <> []
  /\ (forall c, In c word -> PyStr.isspace c = false)
  /\ exists pre post,
       text = pre ++ word ++ post
       /\ ends_at_boundary pre /\ starts_at_boundary post.

(** [text] without its occurrences of the character [c]. *)
Definition without_char (c : ascii) (text : str) : str :=
  filter (fun x => negb (Ascii.eqb x c)) text.

(** [a] is the first author of [l] that satisfies [want]. *)
Definition first_with (want : Author -> bool) (l : list Author) (a : Author) : Prop :=
  exists before after,
    l = before ++ a :: after
    /\ want a = true
    /\ forall b, In b before -> want b = false.

Definition has_email (a : Author) : bool := PyStr.truthy_opt (email a).

Definition corresponding_with_email (a : Author) : bool :=
  is_corresponding a && has_email a.

(** The reading of the specification in which only whole words count,
    for a keyword of either table. *)
Definition whole_word_match (keyword affiliation_lower : str) : bool :=
  is_token keyword affiliation_lower || space_bounded keyword affiliation_lower.

(** The reading of the specification in which an email counts as soon
    as it is not [None]. *)
Definition email_not_none (a : Author) : bool :=
  match email a with Some _ => true | None => false end.

Definition corresponding_with_any_email (a : Author) : bool :=
  is_corresponding a && email_not_none a.

(** A list of strings in strictly ascending order. *)
Definition ascending (l : list str) : Prop :=
  StronglySorted (fun a b => PyStr.ltb a b = true) l.

(* ================================================================== *)
(** ** parser.py: the batch of search results *)

(** A value of [api_response["result"]]: a dictionary of paper data, or
    a value of another type, as the list stored under "uids" is.
    [parse_paper] catches the exception that a value of another type
    raises and returns [None]. *)
Inductive result_value : Type :=
| ResultRecord : paper_data -> result_value
| ResultOther : result_value.

(** The response: [None] when it has no key "result", else the items of
    [api_response["result"]] in their order. *)
Definition api_response : Type := option (list (str * result_value)).

Section ParserBatch.

Variable ACADEMIC : list str.
Variable COMPANY : list str.
Variable strptime_ : str -> str -> option date.

Definition parse_result_value (v : result_value) : option Paper :=
  match v with
  | ResultRecord d => parse_paper ACADEMIC COMPANY strptime_ d
  | ResultOther => None
  end.

(** One pass of [for uid, paper_data in api_response["result"].items()]:
    the papers it appends. *)
Definition parse_item (item : str * result_value) : list Paper :=
  let '(uid, value) := item in
  if PyStr.str_eqb uid (py "uids") then []
  else match parse_result_value value with
       | Some paper => [paper]
       | None => []
       end.

Definition parse_search_results (r : api_response) : list Paper :=
  match r with
  | None => []
  | Some items => flat_map parse_item items
  end.

End ParserBatch.

(* ================================================================== *)
(** ** api.py: the pure parts *)

Definition test_pmids : list str :=
  map py ["40053389"; "40053387"; "40053353"; "40053349"; "40053343";
          "40053336"; "40053308"; "40053290"; "40053285"; "40053281"]%string.

(** [l[:n]]: a negative [n] counts from the end. *)
Definition slice_to {A : Type} (l : list A) (n : Z) : list A :=
  if (0 <=? n)%Z then firstn (Z.to_nat n) l
  else firstn (Z.to_nat (Z.of_nat (List.length l) + n)) l.

(** [PubMedAPI.search]: the query is not used. *)
Definition search (query : str) (max_results : Z) : list str :=
  slice_to test_pmids max_results.

(** The text of [pubdate] that [fetch_details] builds from the children
    of the element "PubDate"; [None] is a missing child. *)
Definition api_pubdate (Year Month Day : option str) : str :=
  let year := get Year empty_str in
  let month := get Month (py "1") in
  let day := get Day (py "1") in
  year ++ py "-" ++ month ++ py "-" ++ day.

(* ================================================================== *)
(** ** fetcher.py *)

Definition HEADERS : list str :=
  map py ["PubmedID"; "Title"; "Publication Date"; "Non-academic Author(s)";
          "Company Affiliation(s)"; "Corresponding Author Email"]%string.

(** The decimal digit of [k mod 10]. *)
Definition digit_char (k : Z) : ascii := ascii_of_N (Z.to_N (48 + k mod 10)).

(** ["%04d" % y] and ["%02d" % m], for the years and the months and days
    of a [datetime.date]. *)
Definition pad4 (y : Z) : str :=
  [digit_char (y / 1000); digit_char (y / 100); digit_char (y / 10); digit_char y].

Definition pad2 (m : Z) : str := [digit_char (m / 10); digit_char m].

(** [d.isoformat()] *)
Definition isoformat (d : date) : str :=
  pad4 (year d) ++ py "-" ++ pad2 (month d) ++ py "-" ++ pad2 (day d).

(** [x or ''] for an [Optional[str]]. *)
Definition or_empty (x : option str) : str :=
  if PyStr.truthy_opt x then get x empty_str else empty_str.

(** The row appended to [rows] for one paper. *)
Definition csv_row (paper : Paper) : list str :=
  let non_academic_authors :=
    PyStr.join (py "; ") (map name (non_academic_authors paper)) in
  let company_affiliations :=
    PyStr.join (py "; ") (company_affiliations paper) in
  [pubmed_id paper; title paper; isoformat (publication_date paper);
   non_academic_authors; company_affiliations;
   or_empty (corresponding_author_email paper)].

(** [save_results_to_csv]: the rows handed to [csv.writer], the header
    first; [None] when the function returns before writing. *)
Definition save_results_to_csv (papers : list Paper) : option (list (list str)) :=
  match papers with
  | [] => None
  | _ :: _ => Some (HEADERS :: map csv_row papers)
  end.

Section Fetcher.

Variable ACADEMIC : list str.
Variable COMPANY : list str.
Variable strptime_ : str -> str -> option date.

(** [self.api.fetch_details] *)
Variable fetch_details : list str -> api_response.

Definition process_papers (pmids : list str) : list Paper :=
  match pmids with
  | [] => []
  | _ :: _ => parse_search_results ACADEMIC COMPANY strptime_ (fetch_details pmids)
  end.

Definition fetch_and_save (query : str) (max_results : Z) : option (list (list str)) :=
  let pmids := search query max_results in
  let papers := process_papers pmids in
  save_results_to_csv papers.

End Fetcher.

(* ================================================================== *)
(** ** Auxiliary functions of the proofs *)

Definition nonspace (c : ascii) : bool := negb (PyStr.isspace c).

(** The first word of a text and what follows it. *)
Fixpoint take_word (s : str) : str :=
  match s with
  | [] => []
  | c :: s' => if nonspace c then c :: take_word s' else []
  end.

Fixpoint drop_word (s : str) : str :=
  match s with
  | [] => []
  | c :: s' => if nonspace c then drop_word s' else s
  end.

Arguments nonspace : simpl never.

(** One pass of a position loop. *)
Definition pos_step (text : str) (acc : position) (keyword : str) : position :=
  let pos := PyStr.find text keyword in
  if (pos =? -1)%Z then acc else position_min acc pos.

(** A text that neither begins nor ends with whitespace. *)
Definition trimmed (text : str) : Prop :=
  (forall x rest, text = x :: rest -> PyStr.isspace x = false)
  /\ (forall x rest, text = rest ++ [x] -> PyStr.isspace x = false).

(** The inputs of the examples. *)
Definition new_author := new_Author ACADEMIC_KEYWORDS COMPANY_KEYWORDS.

Definition author := Author_ ACADEMIC_KEYWORDS COMPANY_KEYWORDS.

(** The three authors of [test_paper_properties]. *)
Definition john_doe : Author :=
  new_author (py "John Doe") (Some (py "University of Science")) None true false None.

Definition jane_smith : Author :=
  new_author (py "Jane Smith") (Some (py "Pfizer Inc.")) (Some (py "jane@pfizer.com"))
             false true (Some (py "Pfizer Inc")).

Definition bob_wilson : Author :=
  new_author (py "Bob Wilson") (Some (py "Novartis")) None false true (Some (py "Novartis")).

Definition test_paper : Paper :=
  mkPaper (py "12345") (py "Test Paper") (mkDate 2023 1 1)
          [john_doe; jane_smith; bob_wilson] None.

(** A corresponding author whose email is the empty string, before an
    author with an address. *)
Definition ann_lee : Author :=
  new_author (py "Ann Lee") None (Some empty_str) true false None.

Definition raj_patel : Author :=
  new_author (py "Raj Patel") None (Some (py "raj@example.org")) false false None.

Definition paper_empty_email : Paper :=
  mkPaper (py "67890") (py "Another Paper") (mkDate 2023 1 1)
          [ann_lee; raj_patel] None.

(** A record whose date is in neither format of [parse_date]. *)
Definition record_2023_jun_15 : paper_data :=
  mkPaperData (Some (py "12345")) (Some (py "Test Paper"))
              (Some (py "2023 Jun 15")) (Some []) None.

(** A record whose affiliation holds the word "correspond". *)
Definition record_correspond : author_data :=
  mkAuthorData (Some (py "Ann Lee")) None
               (AffStr (py "Letters correspond to the lab")) None.

(* ================================================================== *)
(** ** The code on the examples of the tests *)

Example split_ex :
  PyStr.split (py "  pfizer inc,  research ") = [py "pfizer"; py "inc,"; py "research"].
Proof. reflexivity. Qed.

Example split_on_ex :
  PyStr.split_on "," (py "a,,b,") = [py "a"; empty_str; py "b"; empty_str].
Proof. reflexivity. Qed.

Example replace_ex :
  PyStr.replace (py "aaa.b.") (py "aa") (py "x") = py "xa.b.".
Proof. reflexivity. Qed.

Example find_ex : PyStr.find (py "princeton inc") (py "inc") = 2%Z.
Proof. reflexivity. Qed.

Example strip_ex : PyStr.strip_chars (py "., ") (py " .Pfizer Inc., ") = py "Pfizer Inc".
Proof. reflexivity. Qed.

Example strptime_ex1 :
  Strptime.strptime (py "2023-06-15") (py "%Y-%m-%d") = Some (mkDate 2023 6 15).
Proof. reflexivity. Qed.

Example strptime_ex2 :
  Strptime.strptime (py "2023-Jun-15") (py "%Y-%b-%d") = Some (mkDate 2023 6 15).
Proof. reflexivity. Qed.

Example strptime_ex3 :
  Strptime.strptime (py "2023-02-30") (py "%Y-%m-%d") = None.
Proof. reflexivity. Qed.

(* ================================================================== *)
(** ** Substrings and [find] *)

Module PyStrFacts.
Import PyStr.

Lemma startswith_iff (s p : str) :
  startswith s p = true <-> exists post, s = p ++ post.
Proof.
  revert s; induction p as [|a p IH]; intros s; simpl.
  - split; [intros _; now exists s | reflexivity].
  - destruct s as [|b s].
    + split; [discriminate | intros [post H]; discriminate].
    + rewrite andb_true_iff, Ascii.eqb_eq, IH. split.
      * intros [-> [post ->]]. now exists post.
      * intros [post H]. injection H as -> ->. split; [reflexivity | now exists post].
Qed.

Lemma occurs_at_0 (s sub : str) :
  occurs_at s sub 0 <-> startswith s sub = true.
Proof.
  rewrite startswith_iff. unfold occurs_at. split.
  - intros (pre & post & -> & Hlen). destruct pre; [|discriminate]. now exists post.
  - intros [post ->]. now exists [], post.
Qed.

Lemma occurs_at_S (c : ascii) (s sub : str) (i : nat) :
  occurs_at (c :: s) sub (S i) <-> occurs_at s sub i.
Proof.
  unfold occurs_at. split.
  - intros (pre & post & H & Hlen). destruct pre as [|x pre]; [discriminate|].
    simpl in H. injection H as -> ->. injection Hlen as Hlen. now exists pre, post.
  - intros (pre & post & -> & Hlen). exists (c :: pre), post. simpl. now rewrite Hlen.
Qed.

Lemma occurs_at_nil (sub : str) (i : nat) :
  occurs_at [] sub i -> i = 0.
Proof.
  intros (pre & post & H & Hlen). destruct pre; [now subst | discriminate].
Qed.

Lemma contains_iff (s sub : str) :
  contains s sub = true <-> exists i, occurs_at s sub i.
Proof.
  induction s as [|c s IH].
  - simpl. rewrite orb_false_r, <- occurs_at_0. split.
    + intros H. now exists 0.
    + intros [i H]. now rewrite (occurs_at_nil sub i H) in H.
  - cbn [contains]. rewrite orb_true_iff, IH, <- occurs_at_0. split.
    + intros [H | [i H]]; [now exists 0 | exists (S i); now apply occurs_at_S].
    + intros [[|i] H]; [now left | right; exists i; now apply occurs_at_S in H].
Qed.

Lemma contains_app_iff (s sub : str) :
  contains s sub = true <-> exists pre post, s = pre ++ sub ++ post.
Proof.
  rewrite contains_iff. unfold occurs_at. split.
  - intros (i & pre & post & H & _). now exists pre, post.
  - intros (pre & post & H). now exists (List.length pre), pre, post.
Qed.

(** A text that contains [a ++ b] contains [b]. *)
Lemma contains_suffix (s a b : str) :
  contains s (a ++ b) = true -> contains s b = true.
Proof.
  rewrite !contains_app_iff. intros (pre & post & ->).
  exists (pre ++ a), post. now rewrite <- !app_assoc.
Qed.

Lemma find_range (s sub : str) :
  (find s sub = -1 \/ 0 <= find s sub)%Z.
Proof.
  induction s as [|c s IH]; simpl.
  - destruct (startswith [] sub); lia.
  - destruct (startswith (c :: s) sub); [lia|].
    destruct (Z.eqb_spec (find s sub) (-1)); lia.
Qed.

(** [find] returns [-1] exactly on the texts that do not contain [sub]. *)
Lemma find_absent (s sub : str) :
  find s sub = (-1)%Z <-> contains s sub = false.
Proof.
  induction s as [|c s IH]; simpl.
  - rewrite orb_false_r. destruct (startswith [] sub); split; intros; (discriminate || reflexivity).
  - destruct (startswith (c :: s) sub); simpl.
    + split; discriminate.
    + destruct (Z.eqb_spec (find s sub) (-1)) as [E|E].
      * tauto.
      * pose proof (find_range s sub). split; [lia | tauto].
Qed.

(** Otherwise it returns the lowest offset at which [sub] occurs. *)
Lemma find_lowest (s sub : str) :
  find s sub <> (-1)%Z ->
  occurs_at s sub (Z.to_nat (find s sub))
  /\ forall j, occurs_at s sub j -> Z.to_nat (find s sub) <= j.
Proof.
  induction s as [|c s IH]; simpl.
  - destruct (startswith [] sub) eqn:E; [|congruence]. intros _. split.
    + now apply occurs_at_0.
    + simpl. lia.
  - destruct (startswith (c :: s) sub) eqn:E.
    + intros _. split; [now apply occurs_at_0 | simpl; lia].
    + destruct (Z.eqb_spec (find s sub) (-1)) as [E1|E1]; [congruence|]. intros _.
      destruct (IH E1) as [Hocc Hmin]. pose proof (find_range s sub).
      replace (Z.to_nat (find s sub + 1)) with (S (Z.to_nat (find s sub))) by lia.
      split; [now apply occurs_at_S|].
      intros [|j] Hj.
      * apply occurs_at_0 in Hj. congruence.
      * apply occurs_at_S in Hj. apply Hmin in Hj. lia.
Qed.

Lemma find_present (s sub : str) (j : nat) :
  occurs_at s sub j -> find s sub <> (-1)%Z.
Proof.
  intros H. rewrite find_absent. 
  assert (contains s sub = true) as -> by (apply contains_iff; now exists j).
  discriminate.
Qed.

End PyStrFacts.

(* ================================================================== *)
(** ** Tokens of [split] *)

Module SplitFacts.
Import PyStr.

Lemma take_drop_word (s : str) : s = take_word s ++ drop_word s.
Proof.
  induction s as [|c s IH]; simpl; [reflexivity|].
  destruct (nonspace c); simpl; [now f_equal | reflexivity].
Qed.

Lemma take_word_nonspace (s : str) (c : ascii) :
  In c (take_word s) -> isspace c = false.
Proof.
  induction s as [|x s IH]; simpl; [tauto|].
  destruct (nonspace x) eqn:E; simpl; [|tauto].
  intros [<- | H]; [|auto]. unfold nonspace in E. now destruct (isspace x).
Qed.

Lemma drop_word_boundary (s : str) : starts_at_boundary (drop_word s).
Proof.
  induction s as [|x s IH]; simpl; [now left|].
  destruct (nonspace x) eqn:E; [exact IH|].
  right. exists x, s. split; [reflexivity|].
  unfold nonspace in E. now destruct (isspace x).
Qed.

Lemma drop_word_length (s : str) : List.length (drop_word s) <= List.length s.
Proof.
  induction s as [|x s IH]; simpl; [lia|].
  destruct (nonspace x); simpl; lia.
Qed.

Lemma drop_word_shorter (c : ascii) (s : str) :
  isspace c = false -> List.length (drop_word (c :: s)) <= List.length s.
Proof.
  intros Hc. cbn [drop_word]. unfold nonspace. rewrite Hc. apply drop_word_length.
Qed.

Lemma split_space (c : ascii) (s : str) :
  isspace c = true -> split (c :: s) = split s.
Proof. intros H. simpl. now rewrite H. Qed.

Lemma split_unfold (c d : ascii) (s : str) :
  split (c :: d :: s) =
  if isspace c then split (d :: s)
  else if isspace d then [c] :: split (d :: s)
       else match split (d :: s) with
            | w :: ws => (c :: w) :: ws
            | [] => [[c]]
            end.
Proof. reflexivity. Qed.

Lemma split_word (s : str) : forall c,
  isspace c = false ->
  split (c :: s) = take_word (c :: s) :: split (drop_word (c :: s)).
Proof.
  induction s as [|d s IH]; intros c Hc.
  - simpl. unfold nonspace. now rewrite Hc.
  - rewrite split_unfold, Hc.
    cbn [take_word drop_word]. unfold nonspace at 1 3. rewrite Hc. cbn [negb].
    destruct (isspace d) eqn:Hd.
    + unfold nonspace. rewrite Hd. reflexivity.
    + rewrite (IH d Hd). reflexivity.
Qed.

(** A word followed by a boundary is the first word of the text. *)
Lemma take_word_app (w post : str) :
  (forall c, In c w -> isspace c = false) ->
  starts_at_boundary post ->
  take_word (w ++ post) = w.
Proof.
  intros Hw Hpost. induction w as [|x w IH]; simpl.
  - destruct Hpost as [-> | (c & rest & -> & Hc)]; [reflexivity|].
    simpl. unfold nonspace. now rewrite Hc.
  - unfold nonspace. rewrite (Hw x (or_introl eq_refl)). simpl.
    f_equal. apply IH. intros c Hc. apply Hw. now right.
Qed.

(** Dropping the first word of a text that has a boundary later on. *)
Lemma drop_word_app (pre t : str) :
  pre <> [] -> ends_at_boundary pre ->
  drop_word (pre ++ t) = drop_word pre ++ t
  /\ drop_word pre <> [] /\ ends_at_boundary (drop_word pre).
Proof.
  intros Hne Hb. induction pre as [|a pre IH]; [congruence|].
  destruct Hb as [Hb | (c & rest & Hb & Hc)]; [discriminate|].
  simpl. destruct (nonspace a) eqn:Ea.
  - destruct pre as [|b pre].
    + destruct rest as [|r rest]; simpl in Hb.
      * injection Hb as ->. unfold nonspace in Ea. now rewrite Hc in Ea.
      * injection Hb as _ Hb. now destruct rest.
    + apply IH; [discriminate|]. right.
      destruct rest as [|r rest]; simpl in Hb; [discriminate|].
      injection Hb as _ Hb. now exists c, rest.
  - repeat split; [discriminate|]. right. now exists c, rest.
Qed.

Lemma ends_at_boundary_cons (c : ascii) (pre : str) :
  isspace c = true -> ends_at_boundary pre -> ends_at_boundary (c :: pre).
Proof.
  intros Hc [-> | (x & rest & -> & Hx)]; right.
  - now exists c, [].
  - now exists x, (c :: rest).
Qed.

Lemma ends_at_boundary_app (a pre : str) :
  pre <> [] -> ends_at_boundary pre -> ends_at_boundary (a ++ pre).
Proof.
  intros Hne [-> | (x & rest & -> & Hx)]; [congruence|].
  right. exists x, (a ++ rest). now rewrite app_assoc.
Qed.

Lemma ends_at_boundary_tail (c : ascii) (pre : str) :
  ends_at_boundary (c :: pre) -> ends_at_boundary pre.
Proof.
  intros [H | (x & rest & H & Hx)]; [discriminate|].
  destruct pre as [|b pre]; [now left|]. right.
  destruct rest as [|r rest]; simpl in H; [discriminate|].
  injection H as _ H. now exists x, rest.
Qed.

Lemma split_sound_len (n : nat) : forall (s w : str),
  List.length s <= n -> In w (split s) -> whole_token w s.
Proof.
  induction n as [|n IH]; intros s w Hlen Hin.
  - destruct s; [contradiction | simpl in Hlen; lia].
  - destruct s as [|c s]; [contradiction|].
    destruct (isspace c) eqn:Hc.
    + rewrite (split_space c s Hc) in Hin.
      destruct (IH s w ltac:(simpl in Hlen; lia) Hin)
        as (Hne & Hns & pre & post & -> & Hpre & Hpost).
      repeat split; try assumption.
      exists (c :: pre), post. repeat split; try assumption.
      now apply ends_at_boundary_cons.
    + rewrite (split_word s c Hc) in Hin.
      pose proof (take_drop_word (c :: s)) as Hdec.
      assert (Htw : take_word (c :: s) <> []).
      { simpl. unfold nonspace. now rewrite Hc. }
      destruct Hin as [<- | Hin].
      * repeat split; [assumption | apply take_word_nonspace |].
        exists [], (drop_word (c :: s)). repeat split.
        -- exact Hdec.
        -- now left.
        -- apply drop_word_boundary.
      * assert (Hl : List.length (drop_word (c :: s)) <= n).
        { pose proof (drop_word_shorter c s Hc). simpl in Hlen. lia. }
        destruct (IH _ w Hl Hin) as (Hne & Hns & pre & post & E & Hpre & Hpost).
        repeat split; try assumption.
        exists (take_word (c :: s) ++ pre), post.
        rewrite Hdec at 1. rewrite E, <- app_assoc. repeat split; try assumption.
        destruct pre as [|p pre].
        -- exfalso. cbn [app] in E. pose proof (drop_word_boundary (c :: s)) as Hb.
           rewrite E in Hb. destruct w as [|x w]; [congruence|].
           destruct Hb as [Hb | (y & rest & Hb & Hy)]; [discriminate|].
           simpl in Hb. injection Hb as <- _.
           rewrite (Hns x (or_introl eq_refl)) in Hy. discriminate.
        -- apply ends_at_boundary_app; [discriminate | assumption].
Qed.

Lemma split_complete_len (n : nat) : forall (s w : str),
  List.length s <= n -> whole_token w s -> In w (split s).
Proof.
  induction n as [|n IH]; intros s w Hlen (Hne & Hns & pre & post & E & Hpre & Hpost).
  - destruct s; [|simpl in Hlen; lia].
    destruct pre; [|discriminate]. destruct w; [congruence | discriminate].
  - destruct s as [|c s].
    { destruct pre; [|discriminate]. destruct w; [congruence | discriminate]. }
    destruct (isspace c) eqn:Hc.
    + rewrite (split_space c s Hc).
      destruct pre as [|p pre].
      * destruct w as [|x w]; [congruence|]. simpl in E. injection E as -> _.
        rewrite (Hns x (or_introl eq_refl)) in Hc. discriminate.
      * simpl in E. injection E as _ ->.
        apply IH; [simpl in Hlen; rewrite ?length_app in *; simpl in *; lia|].
        repeat split; try assumption.
        exists pre, post. repeat split; try assumption.
        now apply ends_at_boundary_tail with p.
    + rewrite (split_word s c Hc).
      destruct pre as [|p pre].
      * left. simpl in E. rewrite E. now apply take_word_app.
      * right.
        destruct (drop_word_app (p :: pre) (w ++ post) ltac:(discriminate) Hpre)
          as (Hd & Hdne & Hdb).
        assert (Hl : List.length (drop_word (c :: s)) <= n).
        { pose proof (drop_word_shorter c s Hc). simpl in Hlen. lia. }
        apply IH; [exact Hl|].
        repeat split; try assumption.
        exists (drop_word (p :: pre)), post. rewrite E, Hd. now repeat split.
Qed.

(** The tokens of [s.split()] are the whole tokens of [s]. *)
Lemma split_in_iff (s w : str) : In w (split s) <-> whole_token w s.
Proof.
  split.
  - now apply split_sound_len with (List.length s).
  - now apply split_complete_len with (List.length s).
Qed.

Lemma str_eqb_eq (a b : str) : str_eqb a b = true <-> a = b.
Proof.
  unfold str_eqb. destruct (list_eq_dec ascii_dec a b); split; congruence.
Qed.

Lemma mem_iff (x : str) (xs : list str) : mem x xs = true <-> In x xs.
Proof.
  unfold mem. rewrite existsb_exists. split.
  - intros (y & Hy & E). apply str_eqb_eq in E. now subst.
  - intros H. exists x. split; [assumption | now apply str_eqb_eq].
Qed.

(** Replacing a character by the empty string deletes it. *)
Lemma replace_char (c : ascii) (s : str) :
  replace s [c] [] = without_char c s.
Proof.
  unfold replace. induction s as [|x s IH]; [reflexivity|].
  cbn [replace_from startswith without_char filter]. rewrite andb_true_r.
  rewrite (Ascii.eqb_sym c x). destruct (Ascii.eqb x c); simpl; [exact IH | now f_equal].
Qed.

End SplitFacts.

(* ================================================================== *)
(** ** The keyword tests and the position loops *)

Section Classifier.
Import PyStr PyStrFacts SplitFacts.

Variable ACADEMIC : list str.
Variable COMPANY : list str.

Lemma has_academic_iff (text : str) :
  has_academic ACADEMIC text = true
  <-> exists k, In k ACADEMIC /\ exists pre post, text = pre ++ k ++ post.
Proof.
  unfold has_academic. rewrite existsb_exists.
  split; intros (k & Hk & H); exists k; (split; [assumption|]);
    now apply contains_app_iff.
Qed.

Lemma is_token_iff (keyword text : str) :
  is_token keyword text = true <-> whole_token keyword (without_char "." text).
Proof.
  unfold is_token. rewrite mem_iff.
  change (py ".") with ["."%char].
  rewrite replace_char. apply split_in_iff.
Qed.

Lemma space_bounded_iff (keyword text : str) :
  space_bounded keyword text = true
  <-> exists pre post,
        py " " ++ text ++ py " " = pre ++ (py " " ++ keyword ++ py " ") ++ post.
Proof. unfold space_bounded. apply contains_app_iff. Qed.

Lemma has_company_iff (text : str) :
  has_company COMPANY text = true
  <-> exists k, In k COMPANY
        /\ (whole_token k (without_char "." text)
            \/ exists pre post,
                 py " " ++ text ++ py " " = pre ++ (py " " ++ k ++ py " ") ++ post).
Proof.
  unfold has_company. rewrite existsb_exists.
  split; intros (k & Hk & H); exists k; (split; [assumption|]).
  - apply orb_true_iff in H. destruct H as [H | H].
    + left. now apply is_token_iff.
    + right. now apply space_bounded_iff.
  - apply orb_true_iff. destruct H as [H | H].
    + left. now apply is_token_iff.
    + right. now apply space_bounded_iff.
Qed.

Lemma earliest_pos_fold (keywords : list str) (text : str) :
  earliest_pos keywords text = fold_left (pos_step text) keywords Inf.
Proof. reflexivity. Qed.

Lemma fold_pos_inf (text : str) (keywords : list str) : forall acc,
  fold_left (pos_step text) keywords acc = Inf ->
  acc = Inf /\ forall k, In k keywords -> find text k = (-1)%Z.
Proof.
  induction keywords as [|k ks IH]; intros acc H; simpl in *.
  - split; [assumption | tauto].
  - destruct (IH _ H) as [Hacc Hks]. unfold pos_step in Hacc.
    destruct (Z.eqb_spec (find text k) (-1)) as [E|E].
    + split; [assumption|]. intros k' [<- | Hk']; auto.
    + destruct acc; discriminate.
Qed.

Lemma fold_pos_offset (text : str) (keywords : list str) : forall acc z,
  fold_left (pos_step text) keywords acc = Offset z ->
  (acc = Offset z \/ exists k, In k keywords /\ find text k = z /\ z <> (-1)%Z)
  /\ (forall a, acc = Offset a -> (z <= a)%Z)
  /\ (forall k, In k keywords -> find text k <> (-1)%Z -> (z <= find text k)%Z).
Proof.
  induction keywords as [|k ks IH]; intros acc z H; simpl in *.
  - subst acc. split; [now left|]. split; [|tauto].
    intros a Ha. injection Ha as ->. lia.
  - destruct (IH _ _ H) as (Hsrc & Hacc & Hks). unfold pos_step in Hsrc, Hacc.
    destruct (Z.eqb_spec (find text k) (-1)) as [E|E].
    + split; [|split].
      * destruct Hsrc as [Hsrc | (k' & Hk' & Hf)]; [now left|].
        right. exists k'. split; [now right | assumption].
      * assumption.
      * intros k' [<- | Hk'] Hne; [congruence | auto].
    + split; [|split].
      * destruct Hsrc as [Hsrc | (k' & Hk' & Hf)].
        -- destruct acc as [|a]; simpl in Hsrc; injection Hsrc as Hz.
           ++ right. exists k. split; [now left | split; congruence].
           ++ destruct (Z.min_spec a (find text k)) as [[_ Hm] | [_ Hm]].
              ** left. congruence.
              ** right. exists k. split; [now left | split; congruence].
        -- right. exists k'. split; [now right | assumption].
      * intros a ->. specialize (Hacc _ eq_refl). lia.
      * intros k' [<- | Hk'] Hne; [|auto].
        destruct acc as [|a]; simpl in Hacc.
        -- now apply Hacc.
        -- specialize (Hacc _ eq_refl). lia.
Qed.

(** A loop that ends at [float('inf')] met no keyword in the text. *)
Lemma earliest_pos_inf (keywords : list str) (text : str) :
  earliest_pos keywords text = Inf ->
  forall k j, In k keywords -> ~ occurs_at text k j.
Proof.
  intros H k j Hk Hocc. rewrite earliest_pos_fold in H.
  apply fold_pos_inf in H. destruct H as [_ H].
  now apply (find_present text k j Hocc), H.
Qed.

(** A loop that ends at an offset ends at the earliest one. *)
Lemma earliest_pos_offset (keywords : list str) (text : str) (z : Z) :
  earliest_pos keywords text = Offset z ->
  (0 <= z)%Z /\ earliest_offset keywords text (Z.to_nat z).
Proof.
  intros H. rewrite earliest_pos_fold in H.
  apply fold_pos_offset in H. destruct H as (Hsrc & _ & Hmin).
  destruct Hsrc as [Hsrc | (k & Hk & Hf & Hne)]; [discriminate|].
  pose proof (find_range text k) as Hr.
  assert (Hfk : find text k <> (-1)%Z) by congruence.
  destruct (find_lowest text k Hfk) as [Hocc _].
  split; [lia|]. split.
  - exists k. split; [assumption | now rewrite <- Hf].
  - intros k' j Hk' Hj.
    pose proof (find_present text k' j Hj) as Hp.
    destruct (find_lowest text k' Hp) as [_ Hlow].
    specialize (Hlow j Hj). specialize (Hmin k' Hk' Hp).
    pose proof (find_range text k'). lia.
Qed.

Lemma earliest_offset_unique (keywords : list str) (text : str) (i j : nat) :
  earliest_offset keywords text i -> earliest_offset keywords text j -> i = j.
Proof.
  intros [(k & Hk & Hi) Hmin] [(k' & Hk' & Hj) Hmin'].
  pose proof (Hmin k' j Hk' Hj). pose proof (Hmin' k i Hk Hi). lia.
Qed.

End Classifier.

(* ================================================================== *)
(** ** Construction of an [Author] *)

Section Construction.
Import PyStr.

Variable ACADEMIC : list str.
Variable COMPANY : list str.

Local Abbreviation check := (_check_non_academic_affiliation ACADEMIC COMPANY).
Local Abbreviation extract := (_extract_company_name COMPANY).
Local Abbreviation new := (new_Author ACADEMIC COMPANY).

(** The test of [__post_init__] fails on [None] and on the empty string
    only. *)
Lemma truthy_opt_false (aff : option str) :
  truthy_opt aff = false <-> aff = None \/ aff = Some [].
Proof.
  destruct aff as [[|c s]|]; simpl; split; intros H.
  - now right.
  - reflexivity.
  - discriminate.
  - destruct H as [H | H]; discriminate.
  - now left.
  - reflexivity.
Qed.

(** The check reads the affiliation only. *)
Lemma check_affiliation (a b : Author) :
  affiliation a = affiliation b -> check a = check b.
Proof.
  unfold check, _check_non_academic_affiliation. now intros ->.
Qed.

Lemma new_Author_empty (n : str) (aff e : option str) (c na : bool) (cn : option str) :
  truthy_opt aff = false ->
  new n aff e c na cn = mkAuthor n aff e c na cn.
Proof.
  intros H. unfold new, new_Author, __post_init__. simpl. now rewrite H.
Qed.

Lemma new_Author_text (n : str) (aff e : option str) (c na : bool) (cn : option str) :
  truthy_opt aff = true ->
  new n aff e c na cn =
  let b := check (mkAuthor n aff e c na cn) in
  mkAuthor n aff e c b
    (if b then extract (mkAuthor n aff e c true cn) else cn).
Proof.
  intros H. unfold new, new_Author, __post_init__. cbn [affiliation]. rewrite H.
  cbn zeta. unfold set_is_non_academic at 1. cbn [is_non_academic].
  fold check. destruct (check (mkAuthor n aff e c na cn)) eqn:E; reflexivity.
Qed.

(** The fields that [__post_init__] never writes. *)
Lemma new_Author_fields (n : str) (aff e : option str) (c na : bool) (cn : option str) :
  name (new n aff e c na cn) = n
  /\ affiliation (new n aff e c na cn) = aff
  /\ email (new n aff e c na cn) = e
  /\ is_corresponding (new n aff e c na cn) = c.
Proof.
  destruct (truthy_opt aff) eqn:H.
  - rewrite (new_Author_text n aff e c na cn H). cbn. auto.
  - rewrite (new_Author_empty n aff e c na cn H). cbn. auto.
Qed.

(** The name extraction returns [None] exactly when no part is kept. *)
Lemma extract_none (self : Author) (text : str) :
  affiliation self = Some text -> text <> [] -> is_non_academic self = true ->
  (extract self = None
   <-> forall seg, In seg (split_on "," text) -> keep_part (strip seg) = false).
Proof.
  intros Haff Hne Hna. unfold extract, _extract_company_name.
  rewrite Haff, Hna. destruct text as [|x text]; [congruence|]. cbn [truthy negb orb].
  set (segs := split_on "," (x :: text)). clearbody segs.
  destruct (filter keep_part (map strip segs)) as [|first rest] eqn:E.
  - split; [intros _ | reflexivity]. intros seg Hseg.
    destruct (keep_part (strip seg)) eqn:K; [|reflexivity].
    assert (In (strip seg) (filter keep_part (map strip segs))).
    { apply filter_In. split; [now apply in_map | assumption]. }
    rewrite E in H. contradiction.
  - split.
    + destruct (List.find (part_has_keyword COMPANY) (first :: rest)); discriminate.
    + intros H. exfalso.
      assert (Hin : In first (filter keep_part (map strip segs))) by (rewrite E; now left).
      apply filter_In in Hin. destruct Hin as [Hin K].
      apply in_map_iff in Hin. destruct Hin as (seg & <- & Hseg).
      rewrite (H seg Hseg) in K. discriminate.
Qed.

End Construction.

(* ================================================================== *)
(** ** The claims on the classifier *)

(** C1, as the specification states it, fails on the code in both
    directions.  With the keyword tables of the specification, the
    affiliation "Pfizer Inc Research" is classified non-academic, its only
    part holds the noise word "research", and [company_name] stays [None].
    And an author constructed without an affiliation keeps the company
    name given to the constructor, while [is_non_academic] is false. *)
Lemma C1_counterexample :
  ~ (company_name (author (py "Jane Smith") (Some (py "Pfizer Inc Research")) None false)
       <> None
     <-> is_non_academic
           (author (py "Jane Smith") (Some (py "Pfizer Inc Research")) None false)
         = true)
  /\ ~ (company_name
          (new_author (py "Bob Wilson") None None false false (Some (py "Novartis")))
          <> None
        <-> is_non_academic
              (new_author (py "Bob Wilson") None None false false (Some (py "Novartis")))
            = true).
Proof.
  split.
  - intros [_ H]. apply H; reflexivity.
  - intros [H _]. discriminate H. discriminate.
Qed.

(** C1 (amended): for an [Author] constructed with the derived fields at
    their defaults, a [company_name] that is not [None] implies that
    [is_non_academic] is true; and when [is_non_academic] is true, the
    affiliation is a non-empty text and [company_name] is [None] exactly
    when every comma-separated part of it is rejected (empty once
    trimmed, or holding a noise word). *)
Theorem C1_company_name_invariant
    (ACADEMIC COMPANY : list str) (n : str) (aff e : option str) (c : bool) :
  let a := Author_ ACADEMIC COMPANY n aff e c in
  (company_name a <> None -> is_non_academic a = true)
  /\ (is_non_academic a = true ->
      exists text,
        aff = Some text /\ text <> []
        /\ (company_name a = None
            <-> forall seg, In seg (PyStr.split_on "," text) ->
                            keep_part (PyStr.strip seg) = false)).
Proof.
  cbv zeta. unfold Author_. destruct (PyStr.truthy_opt aff) eqn:T.
  - rewrite (new_Author_text ACADEMIC COMPANY n aff e c false None T). cbv zeta.
    destruct (_check_non_academic_affiliation ACADEMIC COMPANY
                (mkAuthor n aff e c false None)) eqn:K; cbn.
    + split; [reflexivity|]. intros _.
      destruct aff as [[|x text]|]; try discriminate.
      exists (x :: text). split; [reflexivity|]. split; [discriminate|].
      apply extract_none; [reflexivity | discriminate | reflexivity].
    + split; [congruence | discriminate].
  - rewrite (new_Author_empty ACADEMIC COMPANY n aff e c false None T). cbn.
    split; [congruence | discriminate].
Qed.

Lemma C1_witness :
  is_non_academic (author (py "Jane Smith") (Some (py "Pfizer Inc.")) None false) = true
  /\ exists text,
       Some (py "Pfizer Inc.") = Some text /\ text <> []
       /\ (company_name (author (py "Jane Smith") (Some (py "Pfizer Inc.")) None false)
           = None
           <-> forall seg, In seg (PyStr.split_on "," text) ->
                           keep_part (PyStr.strip seg) = false).
Proof.
  assert (H : is_non_academic
                (author (py "Jane Smith") (Some (py "Pfizer Inc.")) None false) = true).
  { apply (proj1 (C1_company_name_invariant ACADEMIC_KEYWORDS COMPANY_KEYWORDS
                    (py "Jane Smith") (Some (py "Pfizer Inc.")) None false)).
    discriminate. }
  split; [exact H|].
  exact (proj2 (C1_company_name_invariant ACADEMIC_KEYWORDS COMPANY_KEYWORDS
                  (py "Jane Smith") (Some (py "Pfizer Inc.")) None false) H).
Defined.

(** C2, as the specification states it, fails on the code: the academic
    keyword "school" matches inside the word "preschool", where it is
    neither a whole token nor bounded by spaces, and that match decides
    the class of "Preschool Inc". *)
Lemma C2_counterexample :
  has_academic ACADEMIC_KEYWORDS (PyStr.lower (py "Preschool Inc")) = true
  /\ existsb (fun keyword => whole_word_match keyword (PyStr.lower (py "Preschool Inc")))
             ACADEMIC_KEYWORDS = false
  /\ classify ACADEMIC_KEYWORDS COMPANY_KEYWORDS (Some (py "Preschool Inc"))
     = (false, None).
Proof. repeat split. Qed.

(** C2 (amended): a company keyword matches the lower-cased text when it
    is a whole token of the text with its full stops deleted, or when it
    occurs in the text between two spaces (the ends of the text counting
    as spaces), so that a company keyword inside a longer word does not
    match; an academic keyword matches wherever it occurs in the
    lower-cased text, inside a longer word too. *)
Theorem C2_keyword_matching (ACADEMIC COMPANY : list str) (text : str) :
  (has_company COMPANY text = true
   <-> exists k, In k COMPANY
         /\ (whole_token k (without_char "." text)
             \/ exists pre post,
                  py " " ++ text ++ py " " = pre ++ (py " " ++ k ++ py " ") ++ post))
  /\ (has_academic ACADEMIC text = true
      <-> exists k, In k ACADEMIC /\ exists pre post, text = pre ++ k ++ post).
Proof.
  split; [apply has_company_iff | apply has_academic_iff].
Qed.

(** C3: when an academic keyword and a company keyword both match a
    non-empty affiliation, the constructed author is non-academic exactly
    when the earliest offset of a company keyword in the lower-cased text
    is strictly smaller than the earliest offset of an academic keyword. *)
Theorem C3_position_tie_break
    (ACADEMIC COMPANY : list str) (n text : str) (e : option str)
    (c na : bool) (cn : option str) :
  text <> [] ->
  has_academic ACADEMIC (PyStr.lower text) = true ->
  has_company COMPANY (PyStr.lower text) = true ->
  (is_non_academic (new_Author ACADEMIC COMPANY n (Some text) e c na cn) = true
   <-> exists ic ia,
         earliest_offset COMPANY (PyStr.lower text) ic
         /\ earliest_offset ACADEMIC (PyStr.lower text) ia
         /\ ic < ia).
Proof.
  intros Hne Ha Hc.
  assert (T : PyStr.truthy_opt (Some text) = true) by (destruct text; [congruence | reflexivity]).
  rewrite (new_Author_text ACADEMIC COMPANY n (Some text) e c na cn T).
  cbv zeta. cbn [is_non_academic].
  unfold _check_non_academic_affiliation. cbn [affiliation].
  simpl in T. rewrite T. cbn [negb]. rewrite Ha, Hc. cbn [andb].
  (* the academic loop finds an offset *)
  apply has_academic_iff in Ha. destruct Ha as (ka & Hka & pre & post & Eka).
  assert (Oka : occurs_at (PyStr.lower text) ka (List.length pre)) by (now exists pre, post).
  destruct (earliest_pos ACADEMIC (PyStr.lower text)) as [|za] eqn:Ea.
  { exfalso. exact (earliest_pos_inf ACADEMIC (PyStr.lower text) Ea ka _ Hka Oka). }
  destruct (earliest_pos_offset ACADEMIC (PyStr.lower text) za Ea) as [Hza Hia].
  destruct (earliest_pos COMPANY (PyStr.lower text)) as [|zc] eqn:Ec.
  - simpl. split; [discriminate|].
    intros (ic & ia & [(k & Hk & Hocc) _] & _).
    exfalso. exact (earliest_pos_inf COMPANY (PyStr.lower text) Ec k _ Hk Hocc).
  - destruct (earliest_pos_offset COMPANY (PyStr.lower text) zc Ec) as [Hzc Hic].
    simpl. rewrite Z.ltb_lt. split.
    + intros Hlt. exists (Z.to_nat zc), (Z.to_nat za).
      split; [exact Hic | split; [exact Hia | lia]].
    + intros (ic & ia & Hic' & Hia' & Hlt).
      rewrite (earliest_offset_unique _ _ _ _ Hic' Hic) in Hlt.
      rewrite (earliest_offset_unique _ _ _ _ Hia' Hia) in Hlt. lia.
Qed.

Lemma C3_witness :
  is_non_academic
    (new_author (py "Jane Smith") (Some (py "Pfizer Inc and Harvard University"))
                None false false None) = true
  <-> exists ic ia,
        earliest_offset COMPANY_KEYWORDS
          (PyStr.lower (py "Pfizer Inc and Harvard University")) ic
        /\ earliest_offset ACADEMIC_KEYWORDS
             (PyStr.lower (py "Pfizer Inc and Harvard University")) ia
        /\ ic < ia.
Proof.
  apply (C3_position_tie_break ACADEMIC_KEYWORDS COMPANY_KEYWORDS
           (py "Jane Smith") (py "Pfizer Inc and Harvard University")
           None false false None);
    [discriminate | reflexivity | reflexivity].
Defined.

(** C4: on an affiliation that is [None] or the empty string the
    classifier answers [(false, None)]; the check and the name extraction
    return [False] and [None] on every author with such an affiliation,
    whatever its other fields hold. *)
Theorem C4_empty_affiliation
    (ACADEMIC COMPANY : list str) (aff : option str) :
  aff = None \/ aff = Some empty_str ->
  classify ACADEMIC COMPANY aff = (false, None)
  /\ forall self : Author,
       affiliation self = aff ->
       _check_non_academic_affiliation ACADEMIC COMPANY self = false
       /\ _extract_company_name COMPANY self = None.
Proof.
  intros H. split.
  - unfold classify, Author_.
    rewrite new_Author_empty; [reflexivity | now apply truthy_opt_false].
  - intros self Hs. unfold _check_non_academic_affiliation, _extract_company_name.
    rewrite Hs. destruct H as [-> | ->]; split; reflexivity.
Qed.

Lemma C4_witness :
  classify ACADEMIC_KEYWORDS COMPANY_KEYWORDS (Some empty_str) = (false, None)
  /\ forall self : Author,
       affiliation self = Some empty_str ->
       _check_non_academic_affiliation ACADEMIC_KEYWORDS COMPANY_KEYWORDS self = false
       /\ _extract_company_name COMPANY_KEYWORDS self = None.
Proof.
  apply (C4_empty_affiliation ACADEMIC_KEYWORDS COMPANY_KEYWORDS (Some empty_str)).
  right. reflexivity.
Defined.

(** Whatever the keyword tables hold, an author with the affiliation of
    the test is named "Pfizer Inc" as soon as it is non-academic: the
    part "Research Division" is dropped and the full stop is stripped. *)
Lemma pfizer_company_name (ACADEMIC COMPANY : list str) :
  is_non_academic
    (Author_ ACADEMIC COMPANY (py "Jane Smith")
             (Some (py "Pfizer Inc., Research Division")) None false) = true ->
  company_name
    (Author_ ACADEMIC COMPANY (py "Jane Smith")
             (Some (py "Pfizer Inc., Research Division")) None false)
  = Some (py "Pfizer Inc").
Proof.
  unfold Author_. rewrite new_Author_text by reflexivity. cbv zeta.
  cbn [is_non_academic company_name]. intros ->.
  unfold _extract_company_name. cbn [affiliation is_non_academic].
  change (filter keep_part
            (map PyStr.strip
               (PyStr.split_on "," (py "Pfizer Inc., Research Division"))))
    with [py "Pfizer Inc."].
  cbn [PyStr.truthy py list_ascii_of_string negb orb List.find].
  match goal with
  | |- context [part_has_keyword ?K ?part] => destruct (part_has_keyword K part)
  end; reflexivity.
Qed.

(** The keyword "inc" is not matched in that affiliation: the token of
    [split] is "inc," and the text has "inc." where " inc " is looked for. *)
Lemma pfizer_inc_not_matched :
  PyStr.split (PyStr.replace (PyStr.lower (py "Pfizer Inc., Research Division"))
                             (py ".") empty_str)
  = [py "pfizer"; py "inc,"; py "research"; py "division"]
  /\ is_token (py "inc") (PyStr.lower (py "Pfizer Inc., Research Division")) = false
  /\ space_bounded (py "inc") (PyStr.lower (py "Pfizer Inc., Research Division")) = false.
Proof. repeat split. Qed.

(** What the class of that affiliation is depends on the tables.  With
    the keywords the specification names and no other, no company
    keyword is matched and the author is academic, without a company
    name. *)
Lemma pfizer_with_the_named_keywords :
  is_non_academic
    (author (py "Jane Smith") (Some (py "Pfizer Inc., Research Division")) None false)
  = false
  /\ company_name
       (author (py "Jane Smith") (Some (py "Pfizer Inc., Research Division")) None false)
     = None.
Proof. split; reflexivity. Qed.

(** With the company name itself among the keywords, the token "pfizer"
    is matched and the author is non-academic, named "Pfizer Inc". *)
Lemma pfizer_with_its_name_as_keyword :
  is_non_academic
    (Author_ ACADEMIC_KEYWORDS (py "pfizer" :: COMPANY_KEYWORDS) (py "Jane Smith")
             (Some (py "Pfizer Inc., Research Division")) None false)
  = true
  /\ company_name
       (Author_ ACADEMIC_KEYWORDS (py "pfizer" :: COMPANY_KEYWORDS) (py "Jane Smith")
                (Some (py "Pfizer Inc., Research Division")) None false)
     = Some (py "Pfizer Inc").
Proof. split; reflexivity. Qed.

(** C10: when the affiliation is [None] or the empty string, the
    constructor returns its six arguments unchanged; so an author with
    [is_non_academic] false and a company name can be constructed. *)
Theorem C10_pass_through (ACADEMIC COMPANY : list str) :
  (forall (n : str) (aff e : option str) (c na : bool) (cn : option str),
     aff = None \/ aff = Some empty_str ->
     new_Author ACADEMIC COMPANY n aff e c na cn = mkAuthor n aff e c na cn)
  /\ exists (n : str) (aff e : option str) (c : bool) (cn : str),
       is_non_academic (new_Author ACADEMIC COMPANY n aff e c false (Some cn)) = false
       /\ company_name (new_Author ACADEMIC COMPANY n aff e c false (Some cn)) = Some cn.
Proof.
  split.
  - intros n aff e c na cn H. apply new_Author_empty. now apply truthy_opt_false.
  - exists (py "Bob Wilson"), None, None, false, (py "Novartis"). split; reflexivity.
Qed.

Lemma C10_witness :
  new_author (py "Bob Wilson") None None false false (Some (py "Novartis"))
  = mkAuthor (py "Bob Wilson") None None false false (Some (py "Novartis")).
Proof.
  apply (proj1 (C10_pass_through ACADEMIC_KEYWORDS COMPANY_KEYWORDS)).
  left. reflexivity.
Defined.

(* ================================================================== *)
(** ** The order on strings and [sorted] *)

Module OrderFacts.
Import PyStr.

Lemma code_inj (x y : ascii) : code x = code y -> x = y.
Proof.
  unfold code. intros H.
  rewrite <- (ascii_N_embedding x), <- (ascii_N_embedding y). now rewrite H.
Qed.

Lemma ltb_irrefl (a : str) : ltb a a = false.
Proof.
  induction a as [|x a IH]; simpl; [reflexivity|].
  now rewrite N.ltb_irrefl.
Qed.

Lemma ltb_trans (a : str) : forall b c,
  ltb a b = true -> ltb b c = true -> ltb a c = true.
Proof.
  induction a as [|x a IH]; intros [|y b] [|z c]; simpl; try congruence.
  destruct (N.ltb_spec (code x) (code y)), (N.ltb_spec (code y) (code x)),
           (N.ltb_spec (code y) (code z)), (N.ltb_spec (code z) (code y)),
           (N.ltb_spec (code x) (code z)), (N.ltb_spec (code z) (code x));
    try congruence; try lia.
  apply IH.
Qed.

Lemma ltb_total (a : str) : forall b,
  a <> b -> ltb a b = true \/ ltb b a = true.
Proof.
  induction a as [|x a IH]; intros [|y b] H; simpl; try tauto.
  destruct (N.ltb_spec (code x) (code y)), (N.ltb_spec (code y) (code x));
    try tauto; try lia.
  assert (x = y) by (apply code_inj; lia). subst y.
  apply IH. congruence.
Qed.

Lemma insert_sorted_in (x y : str) (l : list str) :
  In y (insert_sorted x l) <-> y = x \/ In y l.
Proof.
  induction l as [|z l IH]; simpl.
  - intuition.
  - destruct (leb x z); simpl; rewrite ?IH; intuition.
Qed.

Lemma sorted_in (x : str) (l : list str) : In x (sorted l) <-> In x l.
Proof.
  unfold sorted. induction l as [|y l IH]; simpl; [tauto|].
  rewrite insert_sorted_in, IH. intuition.
Qed.

Lemma insert_sorted_ascending (x : str) (l : list str) :
  ~ In x l -> ascending l -> ascending (insert_sorted x l).
Proof.
  unfold ascending. intros Hx Hl. induction Hl as [|z l Hl IH Hz]; simpl.
  - constructor; constructor.
  - assert (Hxz : x <> z) by (intros ->; apply Hx; now left).
    assert (Hxl : ~ In x l) by (intros H; apply Hx; now right).
    unfold leb. destruct (ltb z x) eqn:E; simpl.
    + constructor; [now apply IH|].
      apply Forall_forall. intros y Hy. apply insert_sorted_in in Hy.
      destruct Hy as [-> | Hy]; [assumption|].
      rewrite Forall_forall in Hz. now apply Hz.
    + assert (Hlt : ltb x z = true).
      { destruct (ltb_total x z Hxz); congruence. }
      constructor; [now constructor|].
      constructor; [assumption|].
      apply Forall_forall. intros y Hy. rewrite Forall_forall in Hz.
      apply ltb_trans with z; auto.
Qed.

Lemma sorted_ascending (l : list str) : NoDup l -> ascending (sorted l).
Proof.
  unfold sorted. induction 1 as [|x l Hx Hl IH]; simpl.
  - constructor.
  - apply insert_sorted_ascending; [|assumption].
    fold (sorted l). now rewrite sorted_in.
Qed.

(** A strictly ascending list has no duplicates. *)
Lemma ascending_NoDup (l : list str) : ascending l -> NoDup l.
Proof.
  induction 1 as [|x l Hl IH Hx]; constructor; [|assumption].
  intros Hin. rewrite Forall_forall in Hx. specialize (Hx x Hin).
  now rewrite ltb_irrefl in Hx.
Qed.

End OrderFacts.

(* ================================================================== *)
(** ** The claims on the views of a paper *)

Lemma find_first_with (want : Author -> bool) (l : list Author) (a : Author) :
  first_with want l a -> List.find want l = Some a.
Proof.
  intros (before & after & -> & Ha & Hb).
  induction before as [|b before IH]; simpl.
  - now rewrite Ha.
  - rewrite (Hb b (or_introl eq_refl)). apply IH. intros x Hx. apply Hb. now right.
Qed.

Lemma find_nobody (want : Author -> bool) (l : list Author) :
  (forall b, In b l -> want b = false) -> List.find want l = None.
Proof.
  induction l as [|b l IH]; intros H; simpl; [reflexivity|].
  rewrite (H b (or_introl eq_refl)). apply IH. intros x Hx. apply H. now right.
Qed.

(** On a paper none of whose authors has the empty string as email, an
    email counts exactly when it is not [None]. *)
Lemma corresponding_author_email_not_none (self : Paper) :
  (forall b, In b (authors self) -> email b <> Some empty_str) ->
  corresponding_author_email self
  = match List.find corresponding_with_any_email (authors self) with
    | Some a => email a
    | None =>
        match List.find email_not_none (authors self) with
        | Some a => email a
        | None => None
        end
    end.
Proof.
  intros H. unfold corresponding_author_email.
  assert (E : forall b, In b (authors self) ->
                        PyStr.truthy_opt (email b) = email_not_none b).
  { intros b Hb. specialize (H b Hb). unfold email_not_none.
    destruct (email b) as [[|x e]|]; [congruence | reflexivity | reflexivity]. }
  assert (F : forall (f g : Author -> bool) (l : list Author),
                (forall b, In b l -> f b = g b) -> List.find f l = List.find g l).
  { intros f g l. induction l as [|b l IH]; intros Hfg; [reflexivity|].
    simpl. rewrite (Hfg b (or_introl eq_refl)).
    destruct (g b); [reflexivity|]. apply IH. intros x Hx. apply Hfg. now right. }
  rewrite (F (fun author => is_corresponding author && PyStr.truthy_opt (email author))
             corresponding_with_any_email (authors self)).
  - rewrite (F (fun author => PyStr.truthy_opt (email author))
               email_not_none (authors self) E).
    reflexivity.
  - intros b Hb. unfold corresponding_with_any_email. now rewrite (E b Hb).
Qed.

(** C6, as the specification states it, fails on the code: Ann Lee is
    the first corresponding author whose email is not [None], her email
    is the empty string, and the address returned is that of the next
    author. *)
Lemma C6_counterexample :
  first_with corresponding_with_any_email (authors paper_empty_email) ann_lee
  /\ email ann_lee = Some empty_str
  /\ corresponding_author_email paper_empty_email = Some (py "raj@example.org").
Proof.
  split; [|split; reflexivity].
  exists [], [raj_patel]. split; [reflexivity|]. split; [reflexivity|].
  intros b [].
Qed.

(** C6 (amended): [corresponding_author_email] returns the email of the
    first author, in list order, that is corresponding and has a
    non-empty email; if there is no such author, the email of the first
    author with a non-empty email; and [None] if no author has a
    non-empty email.  An email that is [None] or the empty string is
    passed over. *)
Theorem C6_corresponding_author_email (self : Paper) :
  (forall a, first_with corresponding_with_email (authors self) a ->
             corresponding_author_email self = email a)
  /\ ((forall b, In b (authors self) -> corresponding_with_email b = false) ->
      forall a, first_with has_email (authors self) a ->
                corresponding_author_email self = email a)
  /\ ((forall b, In b (authors self) -> has_email b = false) ->
      corresponding_author_email self = None).
Proof.
  unfold corresponding_author_email.
  change (fun author => is_corresponding author && PyStr.truthy_opt (email author))
    with corresponding_with_email.
  change (fun author => PyStr.truthy_opt (email author)) with has_email.
  split; [|split].
  - intros a Ha. now rewrite (find_first_with _ _ _ Ha).
  - intros Hnone a Ha.
    now rewrite (find_nobody _ _ Hnone), (find_first_with _ _ _ Ha).
  - intros Hnone. rewrite (find_nobody has_email _ Hnone).
    rewrite find_nobody; [reflexivity|].
    intros b Hb. unfold corresponding_with_email. rewrite (Hnone b Hb).
    apply andb_false_r.
Qed.

Lemma C6_witness :
  corresponding_author_email test_paper = Some (py "jane@pfizer.com").
Proof.
  change (corresponding_author_email test_paper = email jane_smith).
  apply (proj1 (proj2 (C6_corresponding_author_email test_paper))).
  - intros b [<- | [<- | [<- | []]]]; reflexivity.
  - exists [john_doe], [bob_wilson]. split; [reflexivity|]. split; [reflexivity|].
    intros b [<- | []]. reflexivity.
Defined.

(** C7: [company_affiliations] lists, in strictly ascending order and so
    without duplicates, exactly the company names that are not [None] of
    the non-academic authors of the paper. *)
Theorem C7_company_affiliations (self : Paper) :
  ascending (company_affiliations self)
  /\ NoDup (company_affiliations self)
  /\ forall company : str,
       In company (company_affiliations self)
       <-> exists a, In a (authors self)
                     /\ is_non_academic a = true
                     /\ company_name a = Some company.
Proof.
  assert (A : ascending (company_affiliations self)).
  { unfold company_affiliations, set_of. apply OrderFacts.sorted_ascending, NoDup_nodup. }
  split; [exact A|]. split; [now apply OrderFacts.ascending_NoDup|].
  intros company. unfold company_affiliations, set_of, non_academic_authors.
  rewrite OrderFacts.sorted_in, nodup_In, in_flat_map. split.
  - intros (a & Ha & Hc). apply filter_In in Ha. destruct Ha as [Ha Hna].
    exists a. repeat split; try assumption.
    destruct (company_name a) as [c|]; [|contradiction].
    destruct Hc as [-> | []]. reflexivity.
  - intros (a & Ha & Hna & Hc). exists a. split.
    + apply filter_In. now split.
    + rewrite Hc. now left.
Qed.

(* ================================================================== *)
(** ** The claims on the parser *)

Section ParserFacts.
Import PyStr.

Variable ACADEMIC : list str.
Variable COMPANY : list str.
Variable strptime_ : str -> str -> option date.

(** The first branch of [parse_paper] is the only one that returns
    [None]. *)
Lemma parse_paper_some (d : paper_data) :
  truthy (strip (get (pd_title d) empty_str)) = true ->
  truthy (get (pd_uid d) empty_str) = true ->
  exists p, parse_paper ACADEMIC COMPANY strptime_ d = Some p
            /\ pubmed_id p = get (pd_uid d) empty_str
            /\ title p = strip (get (pd_title d) empty_str)
            /\ publication_date p
               = (if negb (truthy (get (pd_pubdate d) empty_str)) then mkDate 1900 1 1
                  else parse_date strptime_ (get (pd_pubdate d) empty_str)).
Proof.
  intros Ht Hu. unfold parse_paper. rewrite Ht, Hu. cbn [negb orb].
  eexists. split; [reflexivity|]. cbn. auto.
Qed.

Lemma parse_paper_none (d : paper_data) :
  parse_paper ACADEMIC COMPANY strptime_ d = None
  <-> truthy (strip (get (pd_title d) empty_str)) = false
      \/ truthy (get (pd_uid d) empty_str) = false.
Proof.
  unfold parse_paper.
  destruct (truthy (strip (get (pd_title d) empty_str))),
           (truthy (get (pd_uid d) empty_str)); cbn [negb orb];
    split; intros H; try discriminate; try tauto;
    destruct H; discriminate.
Qed.

Lemma contains_nonempty (s sub : str) :
  contains s sub = true -> sub <> [] -> s <> [].
Proof.
  intros H Hsub ->. destruct sub; [congruence | discriminate].
Qed.

Lemma truthy_nonempty (s : str) : s <> [] -> truthy s = true.
Proof. destruct s; [congruence | reflexivity]. Qed.

Lemma scan_parts_email (aff : str) (parts : list str) (em aff' : str) :
  scan_parts aff parts = Some (em, aff') -> truthy em = true.
Proof.
  induction parts as [|part rest IH]; cbn [scan_parts]; [discriminate|].
  destruct (contains part (py "@") && contains part (py ".")); [|exact IH].
  destruct (contains (lower (strip_chars (py ".,()<>[]{}") part)) (py "@")) eqn:E;
    cbn [andb]; [|exact IH].
  destruct (contains (after_at (lower (strip_chars (py ".,()<>[]{}") part))) (py "."));
    [|exact IH].
  intros H. injection H as <- _.
  apply contains_nonempty in E; [|discriminate].
  apply truthy_nonempty. exact E.
Qed.

(** An extracted email is never the empty string. *)
Lemma extract_email_truthy (aff aff' : option str) (em : str) :
  extract_email aff = (aff', Some em) -> truthy em = true.
Proof.
  unfold extract_email. destruct aff as [a|]; [|discriminate].
  destruct (truthy a); [|discriminate].
  destruct (scan_parts a (split a)) as [[e a']|] eqn:E; [|discriminate].
  intros H. injection H as _ <-. now apply scan_parts_email in E.
Qed.

(** The three terms of the list come down to two. *)
Lemma mentions_correspondence_iff (aff : option str) :
  mentions_correspondence aff = true
  <-> exists text, aff = Some text
        /\ (contains (lower text) (py "corresponding") = true
            \/ contains (lower text) (py "correspondence") = true).
Proof.
  unfold mentions_correspondence. destruct aff as [text|].
  - cbn [CORRESPONDING_TERMS map existsb]. rewrite orb_false_r. split.
    + intros H. apply andb_true_iff in H. destruct H as [_ H].
      exists text. split; [reflexivity|].
      apply orb_true_iff in H. destruct H as [H | H]; [now left|].
      apply orb_true_iff in H. destruct H as [H | H]; [now right|].
      right. exact (PyStrFacts.contains_suffix (lower text) (py "whom ") (py "correspondence") H).
    + intros (t & E & H). injection E as <-. apply andb_true_iff. split.
      * destruct text as [|x text]; [|reflexivity].
        destruct H as [H | H]; discriminate.
      * destruct H as [-> | ->]; [reflexivity | apply orb_true_r].
  - split; [discriminate | intros (t & E & _); discriminate].
Qed.

Lemma parse_author_fields (d : author_data) :
  let a := parse_author ACADEMIC COMPANY d in
  affiliation a = fst (extract_email (raw_affiliation d))
  /\ email a = snd (extract_email (raw_affiliation d))
  /\ is_corresponding a
     = (truthy_opt (email a) || mentions_correspondence (affiliation a)
        || get (ad_is_corresponding d) false).
Proof.
  cbv zeta. unfold parse_author, Author_.
  destruct (extract_email (raw_affiliation d)) as [aff em].
  match goal with
  | |- context [new_Author _ _ ?n ?a ?e ?c ?na ?cn] =>
      destruct (new_Author_fields ACADEMIC COMPANY n a e c na cn) as (_ & -> & -> & ->)
  end.
  auto.
Qed.

End ParserFacts.

(** C8: a date string that [strptime] rejects in both formats is parsed
    as 1900-01-01, and a record that carries it, with a title and an
    identifier, is returned as a paper of that date. *)
Theorem C8_unparseable_date
    (ACADEMIC COMPANY : list str) (strptime_ : str -> str -> option date)
    (date_str : str) :
  strptime_ date_str (py "%Y-%m-%d") = None ->
  strptime_ date_str (py "%Y-%b-%d") = None ->
  parse_date strptime_ date_str = mkDate 1900 1 1
  /\ forall d : paper_data,
       pd_pubdate d = Some date_str ->
       (parse_paper ACADEMIC COMPANY strptime_ d = None
        <-> PyStr.truthy (PyStr.strip (get (pd_title d) empty_str)) = false
            \/ PyStr.truthy (get (pd_uid d) empty_str) = false)
       /\ (PyStr.truthy (PyStr.strip (get (pd_title d) empty_str)) = true ->
           PyStr.truthy (get (pd_uid d) empty_str) = true ->
           exists p, parse_paper ACADEMIC COMPANY strptime_ d = Some p
                     /\ publication_date p = mkDate 1900 1 1).
Proof.
  intros H1 H2.
  assert (D : parse_date strptime_ date_str = mkDate 1900 1 1).
  { unfold parse_date. now rewrite H1, H2. }
  split; [exact D|]. intros d Hd. split; [apply parse_paper_none|].
  intros Ht Hu.
  destruct (parse_paper_some ACADEMIC COMPANY strptime_ d Ht Hu) as (p & Hp & _ & _ & Hdate).
  exists p. split; [assumption|]. rewrite Hdate, Hd. cbn [get].
  destruct (PyStr.truthy date_str); [exact D | reflexivity].
Qed.

Lemma C8_witness :
  parse_date Strptime.strptime (py "2023 Jun 15") = mkDate 1900 1 1
  /\ exists p,
       parse_paper ACADEMIC_KEYWORDS COMPANY_KEYWORDS Strptime.strptime
                   record_2023_jun_15 = Some p
       /\ publication_date p = mkDate 1900 1 1.
Proof.
  destruct (C8_unparseable_date ACADEMIC_KEYWORDS COMPANY_KEYWORDS
              Strptime.strptime (py "2023 Jun 15") eq_refl eq_refl) as [D P].
  split; [exact D|].
  exact (proj2 (P record_2023_jun_15 eq_refl) eq_refl eq_refl).
Defined.

(** C9, as the specification states it, fails on the code: the
    affiliation of the record holds "correspond", no email is extracted
    and no flag is supplied, and the parsed author is not corresponding. *)
Lemma C9_counterexample :
  affiliation (parse_author ACADEMIC_KEYWORDS COMPANY_KEYWORDS record_correspond)
  = Some (py "Letters correspond to the lab")
  /\ PyStr.contains (PyStr.lower (py "Letters correspond to the lab")) (py "correspond")
     = true
  /\ is_corresponding (parse_author ACADEMIC_KEYWORDS COMPANY_KEYWORDS record_correspond)
     = false.
Proof. repeat split. Qed.

(** C9 (amended): the parsed author is corresponding exactly when an
    email was extracted from the affiliation, or the affiliation text
    contains "corresponding" or "correspondence" case-insensitively, or
    the record carries a true corresponding flag. *)
Theorem C9_is_corresponding (ACADEMIC COMPANY : list str) (d : author_data) :
  email (parse_author ACADEMIC COMPANY d) = snd (extract_email (raw_affiliation d))
  /\ (is_corresponding (parse_author ACADEMIC COMPANY d) = true
      <-> email (parse_author ACADEMIC COMPANY d) <> None
          \/ (exists text,
                affiliation (parse_author ACADEMIC COMPANY d) = Some text
                /\ (PyStr.contains (PyStr.lower text) (py "corresponding") = true
                    \/ PyStr.contains (PyStr.lower text) (py "correspondence") = true))
          \/ ad_is_corresponding d = Some true).
Proof.
  destruct (parse_author_fields ACADEMIC COMPANY d) as (Ha & He & Hc).
  cbv zeta in Ha, He, Hc. split; [exact He|].
  rewrite Hc, !orb_true_iff, mentions_correspondence_iff.
  assert (E : PyStr.truthy_opt (email (parse_author ACADEMIC COMPANY d)) = true
              <-> email (parse_author ACADEMIC COMPANY d) <> None).
  { rewrite He. destruct (extract_email (raw_affiliation d)) as [aff [em|]] eqn:X; simpl.
    - rewrite (extract_email_truthy _ _ _ X). split; [discriminate | reflexivity].
    - split; [discriminate | congruence]. }
  assert (F : get (ad_is_corresponding d) false = true <-> ad_is_corresponding d = Some true).
  { destruct (ad_is_corresponding d) as [[|]|]; simpl; split; congruence. }
  rewrite E, F. tauto.
Qed.

(* ================================================================== *)
(** ** More on the [str] methods: [lower], [strip], [split(sep)] *)

Module TextFacts.
Import PyStr PyStrFacts.

Lemma lower_char_idem (c : ascii) : lower_char (lower_char c) = lower_char c.
Proof. destruct c as [[] [] [] [] [] [] [] []]; reflexivity. Qed.

Lemma isspace_lower_char (c : ascii) : isspace (lower_char c) = isspace c.
Proof. destruct c as [[] [] [] [] [] [] [] []]; reflexivity. Qed.

(** No character becomes "@" or "," in lower case, and these two stay. *)
Lemma lower_char_at (c : ascii) : lower_char c = "@"%char <-> c = "@"%char.
Proof.
  destruct c as [[] [] [] [] [] [] [] []]; vm_compute; split; congruence.
Qed.

Lemma lower_idem (s : str) : lower (lower s) = lower s.
Proof.
  unfold lower. rewrite map_map. apply map_ext. apply lower_char_idem.
Qed.

Lemma lower_app (a b : str) : lower (a ++ b) = lower a ++ lower b.
Proof. apply map_app. Qed.

Lemma lower_nil (s : str) : lower s = [] <-> s = [].
Proof. destruct s; simpl; split; congruence. Qed.

(** [x in s] for a one-character [x]. *)
Lemma contains_char (s : str) (x : ascii) : contains s [x] = true <-> In x s.
Proof.
  rewrite contains_app_iff. split.
  - intros (pre & post & ->). apply in_or_app. right. now left.
  - intros H. apply in_split in H. destruct H as (pre & post & ->). now exists pre, post.
Qed.

Lemma contains_char_false (s : str) (x : ascii) : contains s [x] = false <-> ~ In x s.
Proof.
  rewrite <- contains_char. destruct (contains s [x]); split; congruence.
Qed.

(** A text contains what a part of it contains. *)
Lemma contains_part (pre s post sub : str) :
  contains s sub = true -> contains (pre ++ s ++ post) sub = true.
Proof.
  rewrite !contains_app_iff. intros (a & b & ->).
  exists (pre ++ a), (b ++ post). now rewrite <- !app_assoc.
Qed.

Lemma lstrip_by_split (f : ascii -> bool) (s : str) :
  exists pre, s = pre ++ lstrip_by f s /\ forall c, In c pre -> f c = true.
Proof.
  induction s as [|x s (pre & E & H)]; simpl.
  - now exists [].
  - destruct (f x) eqn:Fx.
    + exists (x :: pre). split; [simpl; now f_equal|].
      intros c [<- | Hc]; auto.
    + now exists [].
Qed.

Lemma lstrip_by_first (f : ascii -> bool) (s : str) (c : ascii) (r : str) :
  lstrip_by f s = c :: r -> f c = false.
Proof.
  induction s as [|x s IH]; simpl; [discriminate|].
  destruct (f x) eqn:Fx; [exact IH|]. intros H. injection H as <- _. exact Fx.
Qed.

(** [strip] cuts a run of stripped characters off each end. *)
Lemma strip_by_split (f : ascii -> bool) (s : str) :
  exists pre post,
    s = pre ++ strip_by f s ++ post
    /\ (forall c, In c pre -> f c = true)
    /\ (forall c, In c post -> f c = true).
Proof.
  unfold strip_by.
  destruct (lstrip_by_split f s) as (pre & E1 & H1).
  destruct (lstrip_by_split f (rev (lstrip_by f s))) as (tail & E2 & H2).
  exists pre, (rev tail). split; [|split].
  - rewrite E1 at 1. f_equal.
    rewrite <- (rev_involutive (lstrip_by f s)), E2 at 1. now rewrite rev_app_distr.
  - exact H1.
  - intros c Hc. apply H2. now apply in_rev.
Qed.

Lemma strip_by_in (f : ascii -> bool) (s : str) (c : ascii) :
  In c (strip_by f s) -> In c s.
Proof.
  destruct (strip_by_split f s) as (pre & post & E & _). intros H.
  rewrite E. apply in_or_app. right. apply in_or_app. now left.
Qed.

Lemma strip_by_contains (f : ascii -> bool) (s sub : str) :
  contains (strip_by f s) sub = true -> contains s sub = true.
Proof.
  destruct (strip_by_split f s) as (pre & post & E & _). intros H.
  rewrite E. now apply contains_part.
Qed.

(** What is left neither begins nor ends with a stripped character. *)
Lemma strip_by_first (f : ascii -> bool) (s : str) (c : ascii) (r : str) :
  strip_by f s = c :: r -> f c = false.
Proof.
  unfold strip_by. intros H.
  destruct (lstrip_by_split f (rev (lstrip_by f s))) as (tail & E & _).
  apply (f_equal (@rev ascii)) in E. rewrite rev_involutive, rev_app_distr, H in E.
  simpl in E. apply lstrip_by_first with (s := s) (r := r ++ rev tail).
  exact E.
Qed.

Lemma strip_by_last (f : ascii -> bool) (s : str) (c : ascii) (r : str) :
  strip_by f s = r ++ [c] -> f c = false.
Proof.
  unfold strip_by. intros H.
  apply (f_equal (@rev ascii)) in H. rewrite rev_involutive, rev_app_distr in H.
  simpl in H. now apply lstrip_by_first in H.
Qed.

(** The parts of [s.split(sep)] hold no separator. *)
Lemma split_on_no_sep (sep : ascii) (s seg : str) :
  In seg (split_on sep s) -> ~ In sep seg.
Proof.
  revert seg. induction s as [|c s IH]; intros seg; simpl.
  - intros [<- | []]. tauto.
  - destruct (Ascii.eqb_spec c sep) as [-> | Hc].
    + intros [<- | H]; [tauto | now apply IH].
    + destruct (split_on sep s) as [|p ps] eqn:E.
      * intros [<- | []]. intros [-> | []]. congruence.
      * intros [<- | H].
        -- intros [-> | Hin]; [congruence|]. apply (IH p); [now left | assumption].
        -- apply IH. now right.
Qed.

(** The first part of [s.split(sep)] ends at the first separator. *)
Lemma split_on_head (sep : ascii) (s : str) :
  exists hd tl,
    split_on sep s = hd :: tl
    /\ ~ In sep hd
    /\ ((tl = [] /\ s = hd)
        \/ exists s', s = hd ++ sep :: s' /\ tl = split_on sep s').
Proof.
  induction s as [|c s (hd & tl & E & Hhd & Hs)]; simpl.
  - exists [], []. split; [reflexivity|]. split; [tauto | now left].
  - destruct (Ascii.eqb_spec c sep) as [-> | Hc].
    + exists [], (split_on sep s). split; [reflexivity|]. split; [tauto|].
      right. now exists s.
    + rewrite E. exists (c :: hd), tl. split; [reflexivity|]. split.
      * intros [-> | H]; [congruence | contradiction].
      * destruct Hs as [[-> ->] | (s' & -> & ->)]; [now left|].
        right. now exists s'.
Qed.

End TextFacts.

(* ================================================================== *)
(** ** More on the classifier *)

Section ClassifierMore.
Import PyStr PyStrFacts TextFacts.

Variable ACADEMIC : list str.
Variable COMPANY : list str.

Local Abbreviation check := (_check_non_academic_affiliation ACADEMIC COMPANY).
Local Abbreviation extract := (_extract_company_name COMPANY).
Local Abbreviation new := (new_Author ACADEMIC COMPANY).

(** The check on a non-empty text, in terms of the two keyword tests. *)
Lemma check_text (self : Author) (text : str) :
  affiliation self = Some text -> text <> [] ->
  check self =
  if has_academic ACADEMIC (lower text) && has_company COMPANY (lower text)
  then position_ltb (earliest_pos COMPANY (lower text))
                    (earliest_pos ACADEMIC (lower text))
  else has_company COMPANY (lower text).
Proof.
  intros H Hne. unfold _check_non_academic_affiliation. rewrite H.
  destruct text; [congruence | reflexivity].
Qed.

(** A check that succeeds has matched a company keyword. *)
Lemma check_true_has_company (self : Author) (text : str) :
  affiliation self = Some text -> text <> [] ->
  check self = true -> has_company COMPANY (lower text) = true.
Proof.
  intros H Hne. rewrite (check_text self text H Hne).
  destruct (has_academic ACADEMIC (lower text)), (has_company COMPANY (lower text));
    simpl; congruence.
Qed.

(** The name extraction reads the affiliation and the flag only. *)
Lemma extract_affiliation (a b : Author) :
  affiliation a = affiliation b -> is_non_academic a = is_non_academic b ->
  extract a = extract b.
Proof.
  unfold _extract_company_name. now intros -> ->.
Qed.

(** The derived fields of a constructed author, for a non-empty text. *)
Lemma new_Author_derived (n text : str) (e : option str) (c na : bool) (cn : option str) :
  text <> [] ->
  is_non_academic (new n (Some text) e c na cn)
  = check (mkAuthor n (Some text) e c na cn)
  /\ company_name (new n (Some text) e c na cn)
     = (if check (mkAuthor n (Some text) e c na cn)
        then extract (mkAuthor n (Some text) e c true cn) else cn).
Proof.
  intros Hne.
  assert (T : truthy_opt (Some text) = true) by (destruct text; [congruence | reflexivity]).
  rewrite (new_Author_text ACADEMIC COMPANY n (Some text) e c na cn T).
  cbv zeta. cbn [is_non_academic company_name]. auto.
Qed.

(** A kept part holds no "@": the email clean-up leaves it as it is. *)
Lemma clean_name_kept (part : str) :
  keep_part part = true -> clean_name part = strip_chars (py "., ") part.
Proof.
  intros K. unfold clean_name.
  destruct (contains (strip_chars (py "., ") part) (py "@")) eqn:E; [|reflexivity].
  exfalso. apply strip_by_contains in E.
  apply (contains_char part "@") in E.
  unfold keep_part in K. apply andb_true_iff in K. destruct K as [_ K].
  apply negb_true_iff in K.
  assert (X : existsb (fun skip => contains (lower part) skip) SKIP_WORDS = true).
  { apply existsb_exists. exists (py "@"). split.
    - unfold SKIP_WORDS. simpl. tauto.
    - apply (contains_char (lower part) "@"). unfold lower.
      apply in_map_iff. exists "@"%char. split; [reflexivity | assumption]. }
  congruence.
Qed.

(** The part that the name extraction chooses. *)
Lemma extract_some (self : Author) (text nm : str) :
  affiliation self = Some text ->
  extract self = Some nm ->
  exists seg,
    In seg (split_on "," text)
    /\ keep_part (strip seg) = true
    /\ nm = strip_chars (py "., ") (strip seg)
    /\ (part_has_keyword COMPANY (strip seg) = true
        \/ forall seg', In seg' (split_on "," text) ->
                        keep_part (strip seg') = true ->
                        part_has_keyword COMPANY (strip seg') = false).
Proof.
  intros Haff. unfold _extract_company_name. rewrite Haff.
  destruct (negb (truthy text) || negb (is_non_academic self)); [discriminate|].
  set (parts := filter keep_part (map strip (split_on "," text))).
  assert (Hparts : forall p, In p parts ->
            exists seg, In seg (split_on "," text) /\ p = strip seg /\ keep_part p = true).
  { intros p Hp. apply filter_In in Hp. destruct Hp as [Hp K].
    apply in_map_iff in Hp. destruct Hp as (seg & <- & Hseg). now exists seg. }
  destruct parts as [|first rest] eqn:E; [discriminate|].
  destruct (List.find (part_has_keyword COMPANY) (first :: rest)) as [part|] eqn:F.
  - intros H. injection H as <-.
    apply find_some in F. destruct F as [Hin Hk].
    destruct (Hparts part Hin) as (seg & Hseg & -> & K).
    exists seg. repeat split; try assumption.
    + now apply clean_name_kept.
    + now left.
  - intros H. injection H as <-.
    destruct (Hparts first (or_introl eq_refl)) as (seg & Hseg & -> & K).
    exists seg. repeat split; try assumption.
    + now apply clean_name_kept.
    + right. intros seg' Hseg' K'.
      apply (find_none _ _ F). rewrite <- E. unfold parts.
      apply filter_In. split; [now apply in_map | assumption].
Qed.

(** A company name set by the construction comes from the extraction. *)
Lemma company_name_extracted (n : str) (aff e : option str) (c : bool) (nm : str) :
  company_name (Author_ ACADEMIC COMPANY n aff e c) = Some nm ->
  exists text,
    aff = Some text /\ text <> []
    /\ extract (mkAuthor n (Some text) e c true None) = Some nm.
Proof.
  unfold Author_. destruct (truthy_opt aff) eqn:T.
  - destruct aff as [[|x text]|]; try discriminate.
    destruct (new_Author_derived n (x :: text) e c false None ltac:(discriminate))
      as [_ ->].
    destruct (check (mkAuthor n (Some (x :: text)) e c false None)); [|discriminate].
    intros H. exists (x :: text). split; [reflexivity|]. split; [discriminate | exact H].
  - rewrite (new_Author_empty ACADEMIC COMPANY n aff e c false None T). discriminate.
Qed.

End ClassifierMore.

(* ================================================================== *)
(** ** Further properties of models.py *)

(** X1: an author constructed with the derived fields at their defaults
    is non-academic only if its affiliation is a non-empty text in which
    a company keyword matches: as a whole token of the lower-cased text
    with its full stops deleted, or between two spaces. *)
Theorem X1_non_academic_needs_company_keyword
    (ACADEMIC COMPANY : list str) (n : str) (aff e : option str) (c : bool) :
  is_non_academic (Author_ ACADEMIC COMPANY n aff e c) = true ->
  exists text,
    aff = Some text /\ text <> []
    /\ exists k, In k COMPANY
         /\ (whole_token k (without_char "." (PyStr.lower text))
             \/ exists pre post,
                  py " " ++ PyStr.lower text ++ py " "
                  = pre ++ (py " " ++ k ++ py " ") ++ post).
Proof.
  unfold Author_. destruct (PyStr.truthy_opt aff) eqn:T.
  - destruct aff as [[|x text]|]; try discriminate.
    destruct (new_Author_derived ACADEMIC COMPANY n (x :: text) e c false None
                ltac:(discriminate)) as [-> _].
    intros H. exists (x :: text). split; [reflexivity|]. split; [discriminate|].
    apply has_company_iff.
    apply (check_true_has_company ACADEMIC COMPANY
             (mkAuthor n (Some (x :: text)) e c false None) (x :: text) eq_refl
             ltac:(discriminate) H).
  - rewrite (new_Author_empty ACADEMIC COMPANY n aff e c false None T). discriminate.
Qed.

Lemma X1_witness :
  exists text,
    Some (py "Pfizer Inc.") = Some text /\ text <> []
    /\ exists k, In k COMPANY_KEYWORDS
         /\ (whole_token k (without_char "." (PyStr.lower text))
             \/ exists pre post,
                  py " " ++ PyStr.lower text ++ py " "
                  = pre ++ (py " " ++ k ++ py " ") ++ post).
Proof.
  apply (X1_non_academic_needs_company_keyword ACADEMIC_KEYWORDS COMPANY_KEYWORDS
           (py "Jane Smith") (Some (py "Pfizer Inc.")) None false).
  reflexivity.
Defined.

(** X2: when no academic keyword occurs in the lower-cased text of a
    non-empty affiliation, the constructed author is non-academic exactly
    when a company keyword matches; the supplied derived fields play no
    part. *)
Theorem X2_without_academic_keyword
    (ACADEMIC COMPANY : list str) (n text : str) (e : option str)
    (c na : bool) (cn : option str) :
  text <> [] ->
  has_academic ACADEMIC (PyStr.lower text) = false ->
  (is_non_academic (new_Author ACADEMIC COMPANY n (Some text) e c na cn) = true
   <-> exists k, In k COMPANY
         /\ (whole_token k (without_char "." (PyStr.lower text))
             \/ exists pre post,
                  py " " ++ PyStr.lower text ++ py " "
                  = pre ++ (py " " ++ k ++ py " ") ++ post)).
Proof.
  intros Hne Ha.
  destruct (new_Author_derived ACADEMIC COMPANY n text e c na cn Hne) as [-> _].
  rewrite (check_text ACADEMIC COMPANY (mkAuthor n (Some text) e c na cn)
             text eq_refl Hne), Ha. cbn [andb].
  apply has_company_iff.
Qed.

Lemma X2_witness :
  is_non_academic (new_author (py "Bob Wilson") (Some (py "Novartis")) None false
                              true (Some (py "Novartis"))) = true
  <-> exists k, In k COMPANY_KEYWORDS
        /\ (whole_token k (without_char "." (PyStr.lower (py "Novartis")))
            \/ exists pre post,
                 py " " ++ PyStr.lower (py "Novartis") ++ py " "
                 = pre ++ (py " " ++ k ++ py " ") ++ post).
Proof.
  apply (X2_without_academic_keyword ACADEMIC_KEYWORDS COMPANY_KEYWORDS
           (py "Bob Wilson") (py "Novartis") None false true (Some (py "Novartis")));
    [discriminate | reflexivity].
Defined.

(** X3: the class does not depend on letter case: two non-empty
    affiliations with the same lower-cased text give the same
    [is_non_academic]. *)
Theorem X3_class_ignores_case
    (ACADEMIC COMPANY : list str) (n1 n2 t1 t2 : str) (e1 e2 : option str)
    (c1 c2 na1 na2 : bool) (cn1 cn2 : option str) :
  t1 <> [] ->
  PyStr.lower t1 = PyStr.lower t2 ->
  is_non_academic (new_Author ACADEMIC COMPANY n1 (Some t1) e1 c1 na1 cn1)
  = is_non_academic (new_Author ACADEMIC COMPANY n2 (Some t2) e2 c2 na2 cn2).
Proof.
  intros Hne Hl.
  assert (Hne2 : t2 <> []).
  { intros ->. apply Hne. now apply TextFacts.lower_nil. }
  destruct (new_Author_derived ACADEMIC COMPANY n1 t1 e1 c1 na1 cn1 Hne) as [-> _].
  destruct (new_Author_derived ACADEMIC COMPANY n2 t2 e2 c2 na2 cn2 Hne2) as [-> _].
  rewrite (check_text ACADEMIC COMPANY (mkAuthor n1 (Some t1) e1 c1 na1 cn1)
             t1 eq_refl Hne).
  rewrite (check_text ACADEMIC COMPANY (mkAuthor n2 (Some t2) e2 c2 na2 cn2)
             t2 eq_refl Hne2).
  now rewrite Hl.
Qed.

Lemma X3_witness :
  is_non_academic (new_author (py "A") (Some (py "PFIZER INC.")) None false false None)
  = is_non_academic (new_author (py "B") (Some (py "pfizer inc.")) None true true None).
Proof.
  apply (X3_class_ignores_case ACADEMIC_KEYWORDS COMPANY_KEYWORDS
           (py "A") (py "B") (py "PFIZER INC.") (py "pfizer inc."));
    [discriminate | reflexivity].
Defined.

(** X4: with a non-empty affiliation the constructor ignores the
    [is_non_academic] it is given; it replaces the [company_name] it is
    given when the author is classified non-academic and keeps it, stale
    or not, when the author is classified academic. *)
Theorem X4_constructor_arguments
    (ACADEMIC COMPANY : list str) (n text : str) (e : option str)
    (c na : bool) (cn : option str) :
  text <> [] ->
  is_non_academic (new_Author ACADEMIC COMPANY n (Some text) e c na cn)
  = is_non_academic (Author_ ACADEMIC COMPANY n (Some text) e c)
  /\ company_name (new_Author ACADEMIC COMPANY n (Some text) e c na cn)
     = (if is_non_academic (Author_ ACADEMIC COMPANY n (Some text) e c)
        then company_name (Author_ ACADEMIC COMPANY n (Some text) e c)
        else cn).
Proof.
  intros Hne. unfold Author_.
  destruct (new_Author_derived ACADEMIC COMPANY n text e c na cn Hne) as [-> ->].
  destruct (new_Author_derived ACADEMIC COMPANY n text e c false None Hne) as [-> ->].
  rewrite (check_affiliation ACADEMIC COMPANY
             (mkAuthor n (Some text) e c na cn)
             (mkAuthor n (Some text) e c false None) eq_refl).
  split; [reflexivity|].
  destruct (_check_non_academic_affiliation ACADEMIC COMPANY
              (mkAuthor n (Some text) e c false None)); [|reflexivity].
  now apply extract_affiliation.
Qed.

Lemma X4_witness :
  is_non_academic bob_wilson = false /\ company_name bob_wilson = Some (py "Novartis").
Proof.
  destruct (X4_constructor_arguments ACADEMIC_KEYWORDS COMPANY_KEYWORDS
              (py "Bob Wilson") (py "Novartis") None false true (Some (py "Novartis"))
              ltac:(discriminate)) as [H1 H2].
  split; [exact H1 | exact H2].
Defined.

(** X5: constructing an author again from the six fields of a
    constructed author gives the same author. *)
Theorem X5_construction_is_stable
    (ACADEMIC COMPANY : list str) (n : str) (aff e : option str)
    (c na : bool) (cn : option str) :
  new_Author ACADEMIC COMPANY
    (name (new_Author ACADEMIC COMPANY n aff e c na cn))
    (affiliation (new_Author ACADEMIC COMPANY n aff e c na cn))
    (email (new_Author ACADEMIC COMPANY n aff e c na cn))
    (is_corresponding (new_Author ACADEMIC COMPANY n aff e c na cn))
    (is_non_academic (new_Author ACADEMIC COMPANY n aff e c na cn))
    (company_name (new_Author ACADEMIC COMPANY n aff e c na cn))
  = new_Author ACADEMIC COMPANY n aff e c na cn.
Proof.
  destruct (PyStr.truthy_opt aff) eqn:T.
  - rewrite (new_Author_text ACADEMIC COMPANY n aff e c na cn T). cbv zeta.
    cbn [name affiliation email is_corresponding is_non_academic company_name].
    rewrite (new_Author_text ACADEMIC COMPANY n aff e c _ _ T). cbv zeta.
    rewrite (check_affiliation ACADEMIC COMPANY
               (mkAuthor n aff e c
                  (_check_non_academic_affiliation ACADEMIC COMPANY
                     (mkAuthor n aff e c na cn))
                  (if _check_non_academic_affiliation ACADEMIC COMPANY
                        (mkAuthor n aff e c na cn)
                   then _extract_company_name COMPANY (mkAuthor n aff e c true cn)
                   else cn))
               (mkAuthor n aff e c na cn) eq_refl).
    destruct (_check_non_academic_affiliation ACADEMIC COMPANY
                (mkAuthor n aff e c na cn)); [|reflexivity].
    apply f_equal. now apply extract_affiliation.
  - rewrite (new_Author_empty ACADEMIC COMPANY n aff e c na cn T). cbn.
    now apply new_Author_empty.
Qed.

(** X6: a company name set by the construction is one comma-separated
    part of the affiliation, trimmed, accepted by the noise filter, and
    stripped of full stops, commas and spaces at both ends; the removal
    of words with "@" never applies.  The part holds a company keyword as
    a whole token unless no accepted part does. *)
Theorem X6_company_name_is_a_part
    (ACADEMIC COMPANY : list str) (n : str) (aff e : option str) (c : bool) (nm : str) :
  company_name (Author_ ACADEMIC COMPANY n aff e c) = Some nm ->
  exists text seg,
    aff = Some text
    /\ In seg (PyStr.split_on "," text)
    /\ keep_part (PyStr.strip seg) = true
    /\ nm = PyStr.strip_chars (py "., ") (PyStr.strip seg)
    /\ (part_has_keyword COMPANY (PyStr.strip seg) = true
        \/ forall seg', In seg' (PyStr.split_on "," text) ->
                        keep_part (PyStr.strip seg') = true ->
                        part_has_keyword COMPANY (PyStr.strip seg') = false).
Proof.
  intros H.
  destruct (company_name_extracted ACADEMIC COMPANY n aff e c nm H) as (text & -> & _ & X).
  destruct (extract_some COMPANY (mkAuthor n (Some text) e c true None)
              text nm eq_refl X) as (seg & Hseg).
  now exists text, seg.
Qed.

Lemma X6_witness :
  exists text seg,
    Some (py "Research Unit, Pfizer Inc.") = Some text
    /\ In seg (PyStr.split_on "," text)
    /\ keep_part (PyStr.strip seg) = true
    /\ py "Pfizer Inc" = PyStr.strip_chars (py "., ") (PyStr.strip seg)
    /\ (part_has_keyword COMPANY_KEYWORDS (PyStr.strip seg) = true
        \/ forall seg', In seg' (PyStr.split_on "," text) ->
                        keep_part (PyStr.strip seg') = true ->
                        part_has_keyword COMPANY_KEYWORDS (PyStr.strip seg') = false).
Proof.
  apply (X6_company_name_is_a_part ACADEMIC_KEYWORDS COMPANY_KEYWORDS
           (py "Jane Smith") (Some (py "Research Unit, Pfizer Inc."))
           None false (py "Pfizer Inc")).
  reflexivity.
Defined.

(** The noise words are absent from what is cut out of a kept part. *)
Lemma kept_part_no_noise (part pre nm post skip : str) :
  keep_part part = true -> part = pre ++ nm ++ post -> In skip SKIP_WORDS ->
  PyStr.contains (PyStr.lower nm) skip = false.
Proof.
  intros K E Hs. unfold keep_part in K.
  apply andb_true_iff in K. destruct K as [_ K]. apply negb_true_iff in K.
  destruct (PyStr.contains (PyStr.lower nm) skip) eqn:C; [|reflexivity].
  exfalso.
  assert (X : existsb (fun skip => PyStr.contains (PyStr.lower part) skip) SKIP_WORDS = true).
  { apply existsb_exists. exists skip. split; [assumption|].
    rewrite E, !TextFacts.lower_app. now apply TextFacts.contains_part. }
  congruence.
Qed.

(** X7: a company name set by the construction holds no comma, no "@"
    and none of the noise words in any letter case, and neither begins
    nor ends with a full stop, a comma or a space. *)
Theorem X7_company_name_is_clean
    (ACADEMIC COMPANY : list str) (n : str) (aff e : option str) (c : bool) (nm : str) :
  company_name (Author_ ACADEMIC COMPANY n aff e c) = Some nm ->
  ~ In ","%char nm
  /\ ~ In "@"%char nm
  /\ (forall skip, In skip SKIP_WORDS ->
                   PyStr.contains (PyStr.lower nm) skip = false)
  /\ (forall x rest, nm = x :: rest -> PyStr.mem_char (py "., ") x = false)
  /\ (forall x rest, nm = rest ++ [x] -> PyStr.mem_char (py "., ") x = false).
Proof.
  intros H.
  destruct (company_name_extracted ACADEMIC COMPANY n aff e c nm H) as (text & -> & _ & X).
  destruct (extract_some COMPANY (mkAuthor n (Some text) e c true None)
              text nm eq_refl X) as (seg & Hseg & K & Hnm & _).
  destruct (TextFacts.strip_by_split (PyStr.mem_char (py "., ")) (PyStr.strip seg))
    as (pre & post & E & _).
  fold (PyStr.strip_chars (py "., ") (PyStr.strip seg)) in E. rewrite <- Hnm in E.
  assert (N : forall skip, In skip SKIP_WORDS ->
                           PyStr.contains (PyStr.lower nm) skip = false).
  { intros skip Hs. exact (kept_part_no_noise _ pre nm post skip K E Hs). }
  split; [|split; [|split; [exact N | split]]].
  - intros Hc. apply (TextFacts.split_on_no_sep "," text seg Hseg).
    apply (TextFacts.strip_by_in PyStr.isspace). unfold PyStr.strip in E.
    rewrite E. apply in_or_app. right. apply in_or_app. now left.
  - intros Hat.
    assert (A : PyStr.contains (PyStr.lower nm) (py "@") = false).
    { apply N. unfold SKIP_WORDS. simpl. tauto. }
    apply (TextFacts.contains_char_false (PyStr.lower nm) "@") in A. apply A.
    unfold PyStr.lower. apply in_map_iff. now exists "@"%char.
  - intros x rest Hx. rewrite Hx in Hnm. symmetry in Hnm.
    exact (TextFacts.strip_by_first _ _ _ _ Hnm).
  - intros x rest Hx. rewrite Hx in Hnm. symmetry in Hnm.
    exact (TextFacts.strip_by_last _ _ _ _ Hnm).
Qed.

Lemma X7_witness :
  ~ In ","%char (py "Pfizer Inc")
  /\ ~ In "@"%char (py "Pfizer Inc")
  /\ (forall skip, In skip SKIP_WORDS ->
                   PyStr.contains (PyStr.lower (py "Pfizer Inc")) skip = false)
  /\ (forall x rest, py "Pfizer Inc" = x :: rest -> PyStr.mem_char (py "., ") x = false)
  /\ (forall x rest, py "Pfizer Inc" = rest ++ [x] -> PyStr.mem_char (py "., ") x = false).
Proof.
  apply (X7_company_name_is_clean ACADEMIC_KEYWORDS COMPANY_KEYWORDS
           (py "Jane Smith") (Some (py "Research Unit, Pfizer Inc."))
           None false (py "Pfizer Inc")).
  reflexivity.
Defined.

Lemma insert_sorted_length (x : str) (l : list str) :
  List.length (insert_sorted x l) = S (List.length l).
Proof.
  induction l as [|y l IH]; simpl; [reflexivity|].
  destruct (PyStr.leb x y); simpl; [reflexivity | now rewrite IH].
Qed.

Lemma sorted_length (l : list str) : List.length (sorted l) = List.length l.
Proof.
  unfold sorted. induction l as [|x l IH]; simpl; [reflexivity|].
  now rewrite insert_sorted_length, IH.
Qed.

Lemma nodup_length_le (l : list str) :
  List.length (nodup (list_eq_dec ascii_dec) l) <= List.length l.
Proof.
  induction l as [|x l IH]; simpl; [lia|].
  destruct (in_dec (list_eq_dec ascii_dec) x l); simpl; lia.
Qed.

(** X8: a paper never lists more companies than it has non-academic
    authors, nor more non-academic authors than authors. *)
Theorem X8_company_count (self : Paper) :
  List.length (company_affiliations self) <= List.length (non_academic_authors self)
  /\ List.length (non_academic_authors self) <= List.length (authors self).
Proof.
  split.
  - unfold company_affiliations, set_of. rewrite sorted_length.
    etransitivity; [apply nodup_length_le|].
    induction (non_academic_authors self) as [|a l IH]; simpl; [lia|].
    rewrite length_app. destruct (company_name a); simpl; lia.
  - unfold non_academic_authors. induction (authors self) as [|a l IH]; simpl; [lia|].
    destruct (is_non_academic a); simpl; lia.
Qed.

(* ================================================================== *)
(** ** More on the parser *)

Section ParserMore.
Import PyStr PyStrFacts TextFacts.

(** The characters of a token of [split] are characters of the text, and
    none is whitespace. *)
Lemma token_chars (s w : str) (c : ascii) :
  In w (split s) -> In c w -> In c s /\ isspace c = false.
Proof.
  intros Hw Hc. apply SplitFacts.split_in_iff in Hw.
  destruct Hw as (_ & Hns & pre & post & -> & _). split; [|auto].
  apply in_or_app. right. apply in_or_app. now left.
Qed.

Lemma mem_char_lower (c : ascii) :
  mem_char (py ".,()<>[]{}") (lower_char c) = mem_char (py ".,()<>[]{}") c.
Proof. destruct c as [[] [] [] [] [] [] [] []]; reflexivity. Qed.

(** The part after the first "@" holds a full stop. *)
Lemma after_at_dot (em : str) :
  contains (after_at em) (py ".") = true ->
  exists pre post, em = pre ++ "@"%char :: post
                   /\ ~ In "@"%char pre /\ In "."%char post.
Proof.
  unfold after_at. intros H.
  destruct (split_on_head "@" em) as (hd & tl & E & Hhd & Hs).
  rewrite E in H. destruct Hs as [[-> _] | (s' & -> & ->)]; [discriminate|].
  exists hd, s'. split; [reflexivity|]. split; [assumption|].
  destruct (split_on_head "@" s') as (hd2 & tl2 & E2 & _ & Hs2).
  rewrite E2 in H. cbn [nth] in H.
  apply (contains_char hd2 ".") in H.
  destruct Hs2 as [[_ ->] | (s'' & -> & _)]; [assumption|].
  apply in_or_app. now left.
Qed.

(** What the scan returns, and from which part. *)
Lemma scan_parts_some (aff : str) (parts : list str) (em aff' : str) :
  scan_parts aff parts = Some (em, aff') ->
  exists part,
    In part parts
    /\ em = lower (strip_chars (py ".,()<>[]{}") part)
    /\ contains (after_at em) (py ".") = true
    /\ aff' = strip (replace aff part empty_str).
Proof.
  induction parts as [|part rest IH]; cbn [scan_parts]; [discriminate|].
  assert (R : scan_parts aff rest = Some (em, aff') ->
              exists part0, In part0 (part :: rest)
                /\ em = lower (strip_chars (py ".,()<>[]{}") part0)
                /\ contains (after_at em) (py ".") = true
                /\ aff' = strip (replace aff part0 empty_str)).
  { intros H. destruct (IH H) as (p & Hp & X). exists p. split; [now right | exact X]. }
  destruct (contains part (py "@") && contains part (py ".")); [|exact R].
  destruct (contains (lower (strip_chars (py ".,()<>[]{}") part)) (py "@"));
    cbn [andb]; [|exact R].
  destruct (contains (after_at (lower (strip_chars (py ".,()<>[]{}") part))) (py "."))
    eqn:D; [|exact R].
  intros H. injection H as <- <-.
  exists part. split; [now left|]. split; [reflexivity|]. split; [exact D | reflexivity].
Qed.

(** Without a part that holds "@", the scan finds nothing. *)
Lemma scan_parts_none (aff : str) (parts : list str) :
  (forall part, In part parts -> ~ In "@"%char part) ->
  scan_parts aff parts = None.
Proof.
  induction parts as [|part rest IH]; intros H; cbn [scan_parts]; [reflexivity|].
  assert (C : contains part (py "@") = false).
  { apply (contains_char_false part "@"). apply H. now left. }
  rewrite C. cbn [andb]. apply IH. intros p Hp. apply H. now right.
Qed.

Lemma strip_trimmed (s : str) : trimmed (strip s).
Proof.
  split; intros x rest E.
  - exact (strip_by_first isspace s x rest E).
  - exact (strip_by_last isspace s x rest E).
Qed.

Lemma trimmed_nil : trimmed [].
Proof.
  split; intros x rest E; [discriminate | now destruct rest].
Qed.

(** Texts joined by a separator begin as the first and end as the last. *)
Lemma join_trimmed (sep : str) (l : list str) :
  (forall t, In t l -> t <> [] /\ trimmed t) ->
  trimmed (join sep l) /\ (l <> [] -> join sep l <> []).
Proof.
  induction l as [|p l IH]; intros H.
  - split; [apply trimmed_nil | congruence].
  - destruct (H p (or_introl eq_refl)) as [Hp [Hp1 Hp2]].
    destruct l as [|q l].
    + simpl. split; [now split | auto].
    + destruct IH as [[I1 I2] Ine]; [intros t Ht; apply H; now right|].
      specialize (Ine ltac:(discriminate)).
      change (join sep (p :: q :: l)) with (p ++ sep ++ join sep (q :: l)).
      split; [split|].
      * intros x rest E. destruct p as [|y p]; [congruence|].
        simpl in E. injection E as -> _. eapply Hp1. reflexivity.
      * intros x rest E.
        destruct (exists_last Ine) as (r' & z & Ez). rewrite Ez in E.
        rewrite !app_assoc in E. apply app_inj_tail in E. destruct E as [_ ->].
        now apply (I2 x r').
      * intros _ E. destruct p; [congruence | discriminate].
Qed.

Lemma join_affiliations_trimmed (l : list str) (t : str) :
  (forall x, In x l -> x <> [] /\ trimmed x) ->
  join_affiliations l = Some t -> trimmed t.
Proof.
  intros H. unfold join_affiliations. destruct l as [|p l]; [discriminate|].
  intros E. injection E as <-. exact (proj1 (join_trimmed (py "; ") (p :: l) H)).
Qed.

Lemma truthy_nonnil (s : str) : truthy s = true -> s <> [].
Proof. destruct s; [discriminate | congruence]. Qed.

(** The affiliation read from a record is trimmed. *)
Lemma raw_affiliation_trimmed (d : author_data) (t : str) :
  raw_affiliation d = Some t -> trimmed t.
Proof.
  assert (I : forall infos x, In x (info_affiliations infos) -> x <> [] /\ trimmed x).
  { intros infos x Hx. unfold info_affiliations in Hx. apply in_flat_map in Hx.
    destruct Hx as (i & _ & Hx). destruct i as [[text|]|]; try contradiction.
    destruct (truthy (strip text)) eqn:T; [|contradiction].
    destruct Hx as [<- | []]. split; [now apply truthy_nonnil | apply strip_trimmed]. }
  assert (L : forall l x, In x (list_affiliations l) -> x <> [] /\ trimmed x).
  { intros l x Hx. unfold list_affiliations in Hx. apply in_flat_map in Hx.
    destruct Hx as (o & _ & Hx). destruct o as [a|]; [|contradiction].
    destruct (truthy a && truthy (strip a)) eqn:T; [|contradiction].
    apply andb_true_iff in T. destruct T as [_ T].
    destruct Hx as [<- | []]. split; [now apply truthy_nonnil | apply strip_trimmed]. }
  unfold raw_affiliation.
  set (first := match ad_AffiliationInfo d with
                | Some infos => join_affiliations (info_affiliations infos)
                | None => None
                end).
  assert (F : forall t0, first = Some t0 -> trimmed t0).
  { intros t0. unfold first. destruct (ad_AffiliationInfo d) as [infos|]; [|discriminate].
    apply join_affiliations_trimmed, I. }
  destruct (negb (truthy_opt first)); [|apply F].
  destruct (ad_affiliation d) as [|l|s]; [apply F | |].
  - destruct (join_affiliations (list_affiliations l)) as [a|] eqn:J; [|apply F].
    intros E. injection E as <-. exact (join_affiliations_trimmed _ a (L l) J).
  - intros E. injection E as <-. apply strip_trimmed.
Qed.

(** The two results of the email extraction. *)
Lemma extract_email_cases (aff : option str) :
  (extract_email aff = (aff, None)
   /\ forall text, aff = Some text ->
                   scan_parts text (split text) = None \/ text = [])
  \/ exists text part em,
       aff = Some text /\ In part (split text)
       /\ em = lower (strip_chars (py ".,()<>[]{}") part)
       /\ contains (after_at em) (py ".") = true
       /\ extract_email aff = (Some (strip (replace text part empty_str)), Some em).
Proof.
  unfold extract_email. destruct aff as [text|].
  - destruct (truthy text) eqn:T.
    + destruct (scan_parts text (split text)) as [[em aff']|] eqn:S.
      * right. destruct (scan_parts_some text _ em aff' S) as (part & Hp & He & Hd & Ha).
        exists text, part, em. subst aff'. now repeat split.
      * left. split; [reflexivity|]. intros t E. injection E as <-. now left.
    + left. split; [reflexivity|]. intros t E. injection E as <-. right.
      now destruct text.
  - left. split; [reflexivity | discriminate].
Qed.

End ParserMore.

(* ================================================================== *)
(** ** Further properties of parser.py *)

(** The name given to a parsed author. *)
Lemma parse_author_name (ACADEMIC COMPANY : list str) (d : author_data) :
  name (parse_author ACADEMIC COMPANY d)
  = match ad_name d with
    | Some (x :: n) => x :: n
    | _ => py "Unknown Author"
    end.
Proof.
  unfold parse_author, Author_.
  destruct (extract_email (raw_affiliation d)) as [aff em].
  match goal with
  | |- context [new_Author _ _ ?n ?a ?e ?c ?na ?cn] =>
      destruct (new_Author_fields ACADEMIC COMPANY n a e c na cn) as (-> & _)
  end.
  destruct (ad_name d) as [[|x n]|]; reflexivity.
Qed.

Lemma parse_author_name_nonempty (ACADEMIC COMPANY : list str) (d : author_data) :
  name (parse_author ACADEMIC COMPANY d) <> [].
Proof.
  rewrite parse_author_name. destruct (ad_name d) as [[|x n]|]; discriminate.
Qed.

(** X9: the name of a parsed author is never empty: it is the name of
    the record, or "Unknown Author" when the record has no name or an
    empty one. *)
Theorem X9_parsed_name (ACADEMIC COMPANY : list str) (d : author_data) :
  name (parse_author ACADEMIC COMPANY d) <> []
  /\ name (parse_author ACADEMIC COMPANY d)
     = match ad_name d with
       | Some (x :: n) => x :: n
       | _ => py "Unknown Author"
       end.
Proof.
  split; [apply parse_author_name_nonempty | apply parse_author_name].
Qed.

(** X10: an email extracted by the parser is in lower case, holds no
    whitespace, has a first "@" with a full stop somewhere after it, and
    neither begins nor ends with one of the characters ".,()<>[]{}". *)
Theorem X10_extracted_email
    (ACADEMIC COMPANY : list str) (d : author_data) (em : str) :
  email (parse_author ACADEMIC COMPANY d) = Some em ->
  PyStr.lower em = em
  /\ (forall x, In x em -> PyStr.isspace x = false)
  /\ (exists pre post, em = pre ++ "@"%char :: post
                       /\ ~ In "@"%char pre /\ In "."%char post)
  /\ (forall x rest, em = x :: rest -> PyStr.mem_char (py ".,()<>[]{}") x = false)
  /\ (forall x rest, em = rest ++ [x] -> PyStr.mem_char (py ".,()<>[]{}") x = false).
Proof.
  destruct (parse_author_fields ACADEMIC COMPANY d) as (_ & He & _). cbv zeta in He.
  rewrite He. clear He.
  destruct (extract_email_cases (raw_affiliation d))
    as [[E _] | (text & part & em0 & _ & Hpart & Hem & Hdot & E)]; rewrite E; cbn [snd];
    [discriminate|].
  intros H. injection H as <-.
  set (sc := PyStr.strip_chars (py ".,()<>[]{}") part) in *.
  split; [|split; [|split; [|split]]].
  - rewrite Hem. apply TextFacts.lower_idem.
  - intros x Hx. rewrite Hem in Hx. unfold PyStr.lower in Hx.
    apply in_map_iff in Hx. destruct Hx as (x0 & <- & Hx0).
    rewrite TextFacts.isspace_lower_char.
    apply TextFacts.strip_by_in in Hx0.
    exact (proj2 (token_chars text part x0 Hpart Hx0)).
  - now apply after_at_dot.
  - intros x rest Hx. rewrite Hem in Hx. unfold PyStr.lower in Hx.
    apply map_eq_cons in Hx. destruct Hx as (x0 & r0 & Hsc & <- & _).
    rewrite mem_char_lower. exact (TextFacts.strip_by_first _ _ _ _ Hsc).
  - intros x rest Hx. rewrite Hem in Hx. unfold PyStr.lower in Hx.
    apply map_eq_app in Hx. destruct Hx as (r0 & l0 & Hsc & _ & Hl).
    destruct l0 as [|x0 [|y l0]]; try discriminate.
    injection Hl as <-. rewrite mem_char_lower.
    exact (TextFacts.strip_by_last _ _ _ _ Hsc).
Qed.

Lemma X10_witness :
  PyStr.lower (py "jane@pfizer.com") = py "jane@pfizer.com"
  /\ (forall x, In x (py "jane@pfizer.com") -> PyStr.isspace x = false)
  /\ (exists pre post, py "jane@pfizer.com" = pre ++ "@"%char :: post
                       /\ ~ In "@"%char pre /\ In "."%char post)
  /\ (forall x rest, py "jane@pfizer.com" = x :: rest ->
                     PyStr.mem_char (py ".,()<>[]{}") x = false)
  /\ (forall x rest, py "jane@pfizer.com" = rest ++ [x] ->
                     PyStr.mem_char (py ".,()<>[]{}") x = false).
Proof.
  apply (X10_extracted_email ACADEMIC_KEYWORDS COMPANY_KEYWORDS
           (mkAuthorData (Some (py "Jane Smith")) None
              (AffStr (py "Pfizer Inc. (Jane@Pfizer.com).")) None)
           (py "jane@pfizer.com")).
  reflexivity.
Defined.

(** X11: when the affiliation read from the record holds no "@", the
    parser extracts no email and leaves the affiliation as it is. *)
Theorem X11_no_at_no_email
    (ACADEMIC COMPANY : list str) (d : author_data) :
  (forall text, raw_affiliation d = Some text -> ~ In "@"%char text) ->
  email (parse_author ACADEMIC COMPANY d) = None
  /\ affiliation (parse_author ACADEMIC COMPANY d) = raw_affiliation d.
Proof.
  intros H.
  destruct (parse_author_fields ACADEMIC COMPANY d) as (Ha & He & _). cbv zeta in Ha, He.
  rewrite Ha, He.
  assert (E : extract_email (raw_affiliation d) = (raw_affiliation d, None)).
  { unfold extract_email. destruct (raw_affiliation d) as [text|]; [|reflexivity].
    destruct (PyStr.truthy text); [|reflexivity].
    rewrite scan_parts_none; [reflexivity|].
    intros part Hp Hat. apply (H text eq_refl).
    exact (proj1 (token_chars text part "@" Hp Hat)). }
  rewrite E. split; reflexivity.
Qed.

Lemma X11_witness :
  email (parse_author ACADEMIC_KEYWORDS COMPANY_KEYWORDS record_correspond) = None
  /\ affiliation (parse_author ACADEMIC_KEYWORDS COMPANY_KEYWORDS record_correspond)
     = raw_affiliation record_correspond.
Proof.
  apply (X11_no_at_no_email ACADEMIC_KEYWORDS COMPANY_KEYWORDS record_correspond).
  intros text E. injection E as <-. vm_compute. intuition discriminate.
Defined.

(** X12: the affiliation of a parsed author neither begins nor ends with
    whitespace. *)
Theorem X12_parsed_affiliation_trimmed
    (ACADEMIC COMPANY : list str) (d : author_data) (text : str) :
  affiliation (parse_author ACADEMIC COMPANY d) = Some text -> trimmed text.
Proof.
  destruct (parse_author_fields ACADEMIC COMPANY d) as (Ha & _). cbv zeta in Ha.
  rewrite Ha. clear Ha.
  destruct (extract_email_cases (raw_affiliation d))
    as [[E _] | (t & part & em0 & _ & _ & _ & _ & E)]; rewrite E; cbn [fst].
  - apply raw_affiliation_trimmed.
  - intros H. injection H as <-. apply strip_trimmed.
Qed.

Lemma X12_witness : trimmed (py "Pfizer Inc.").
Proof.
  apply (X12_parsed_affiliation_trimmed ACADEMIC_KEYWORDS COMPANY_KEYWORDS
           (mkAuthorData (Some (py "Jane Smith")) None
              (AffStr (py "  Pfizer Inc. (Jane@Pfizer.com).  ")) None)).
  reflexivity.
Defined.

(** X13: the derived fields of a parsed author are those the classifier
    gives for its affiliation, the text left once the email is taken
    out; the name, the email and the flag play no part. *)
Theorem X13_parsed_author_class (ACADEMIC COMPANY : list str) (d : author_data) :
  (is_non_academic (parse_author ACADEMIC COMPANY d),
   company_name (parse_author ACADEMIC COMPANY d))
  = classify ACADEMIC COMPANY (affiliation (parse_author ACADEMIC COMPANY d)).
Proof.
  destruct (parse_author_fields ACADEMIC COMPANY d) as (Ha & _). cbv zeta in Ha.
  rewrite Ha. unfold parse_author, classify, Author_.
  destruct (extract_email (raw_affiliation d)) as [aff em]. cbn [fst].
  destruct (PyStr.truthy_opt aff) eqn:T.
  - rewrite !(new_Author_text ACADEMIC COMPANY _ aff _ _ false None T). cbv zeta.
    cbn [is_non_academic company_name].
    match goal with
    | |- (_check_non_academic_affiliation _ _ ?a, _)
         = (_check_non_academic_affiliation _ _ ?b, _) =>
        rewrite (check_affiliation ACADEMIC COMPANY a b eq_refl)
    end.
    destruct (_check_non_academic_affiliation ACADEMIC COMPANY _); [|reflexivity].
    f_equal.
  - rewrite !(new_Author_empty ACADEMIC COMPANY _ aff _ _ false None T). reflexivity.
Qed.

(** What [parse_paper] puts into a paper it returns. *)
Lemma parse_paper_fields
    (ACADEMIC COMPANY : list str) (strptime_ : str -> str -> option date)
    (d : paper_data) (p : Paper) :
  parse_paper ACADEMIC COMPANY strptime_ d = Some p ->
  PyStr.truthy (PyStr.strip (get (pd_title d) empty_str)) = true
  /\ PyStr.truthy (get (pd_uid d) empty_str) = true
  /\ p = mkPaper (get (pd_uid d) empty_str)
                 (PyStr.strip (get (pd_title d) empty_str))
                 (if negb (PyStr.truthy (get (pd_pubdate d) empty_str))
                  then mkDate 1900 1 1
                  else parse_date strptime_ (get (pd_pubdate d) empty_str))
                 (flat_map (parse_author_entry ACADEMIC COMPANY)
                           (get (pd_authors d) []))
                 (get (pd_abstract d) (Some empty_str)).
Proof.
  unfold parse_paper.
  destruct (PyStr.truthy (PyStr.strip (get (pd_title d) empty_str)));
    destruct (PyStr.truthy (get (pd_uid d) empty_str)); cbn [negb orb];
    try discriminate.
  intros H. injection H as <-. auto.
Qed.

(** The authors that the loop of [parse_paper] keeps. *)
Lemma parse_author_entries_in
    (ACADEMIC COMPANY : list str) (entries : list author_entry) (a : Author) :
  In a (flat_map (parse_author_entry ACADEMIC COMPANY) entries)
  <-> exists r, In (AuthorRecord r) entries /\ a = parse_author ACADEMIC COMPANY r.
Proof.
  rewrite in_flat_map. split.
  - intros ([r|] & Hin & Ha); [|contradiction].
    destruct Ha as [<- | []]. now exists r.
  - intros (r & Hin & ->). exists (AuthorRecord r). split; [assumption | now left].
Qed.

Lemma parse_author_entries_length
    (ACADEMIC COMPANY : list str) (entries : list author_entry) :
  List.length (flat_map (parse_author_entry ACADEMIC COMPANY) entries)
  <= List.length entries.
Proof.
  induction entries as [|e entries IH]; simpl; [lia|].
  rewrite length_app. destruct e; simpl; lia.
Qed.

(** The invariants of a paper that [parse_paper] returns. *)
Lemma parse_paper_invariants
    (ACADEMIC COMPANY : list str) (strptime_ : str -> str -> option date)
    (d : paper_data) (p : Paper) :
  parse_paper ACADEMIC COMPANY strptime_ d = Some p ->
  pubmed_id p <> [] /\ title p <> [] /\ trimmed (title p)
  /\ forall a, In a (authors p) -> name a <> [].
Proof.
  intros H. destruct (parse_paper_fields ACADEMIC COMPANY strptime_ d p H) as (T & U & ->).
  cbn [pubmed_id title authors].
  split; [now apply truthy_nonnil|]. split; [now apply truthy_nonnil|].
  split; [apply strip_trimmed|].
  intros a Ha. apply parse_author_entries_in in Ha. destruct Ha as (r & _ & ->).
  apply parse_author_name_nonempty.
Qed.

(** X14: a paper returned by [parse_paper] has a non-empty identifier and
    a non-empty title without whitespace at its ends.  Its authors are
    the parsed forms of the author records on which [parse_author] does
    not raise, the other entries being skipped, so that there are at most
    as many authors as entries, and each has a non-empty name.  Its
    abstract is the value of the record, the empty string when the key is
    absent.  Its date is 1900-01-01 when the record has no date or an
    empty one, whatever [strptime] would do. *)
Theorem X14_parsed_paper
    (ACADEMIC COMPANY : list str) (strptime_ : str -> str -> option date)
    (d : paper_data) (p : Paper) :
  parse_paper ACADEMIC COMPANY strptime_ d = Some p ->
  pubmed_id p <> [] /\ title p <> [] /\ trimmed (title p)
  /\ List.length (authors p) <= List.length (get (pd_authors d) [])
  /\ (forall a, In a (authors p)
                <-> exists r, In (AuthorRecord r) (get (pd_authors d) [])
                              /\ a = parse_author ACADEMIC COMPANY r)
  /\ (forall a, In a (authors p) -> name a <> [])
  /\ abstract p = get (pd_abstract d) (Some empty_str)
  /\ (pd_pubdate d = None \/ pd_pubdate d = Some empty_str ->
      publication_date p = mkDate 1900 1 1).
Proof.
  intros H.
  destruct (parse_paper_invariants ACADEMIC COMPANY strptime_ d p H)
    as (I1 & I2 & I3 & I4).
  destruct (parse_paper_fields ACADEMIC COMPANY strptime_ d p H) as (_ & _ & E).
  repeat (split; [assumption|]).
  split; [|split; [|split; [assumption | split]]].
  - rewrite E. cbn [authors]. apply parse_author_entries_length.
  - intros a. rewrite E. cbn [authors]. apply parse_author_entries_in.
  - rewrite E. reflexivity.
  - rewrite E. cbn [publication_date]. intros [-> | ->]; reflexivity.
Qed.

Lemma X14_witness :
  List.length
    (authors (mkPaper (py "12345") (py "Test Paper") (mkDate 1900 1 1)
                      [parse_author ACADEMIC_KEYWORDS COMPANY_KEYWORDS record_correspond]
                      None))
  <= 2
  /\ abstract (mkPaper (py "12345") (py "Test Paper") (mkDate 1900 1 1)
                       [parse_author ACADEMIC_KEYWORDS COMPANY_KEYWORDS record_correspond]
                       None)
     = None.
Proof.
  destruct (X14_parsed_paper ACADEMIC_KEYWORDS COMPANY_KEYWORDS Strptime.strptime
              (mkPaperData (Some (py "12345")) (Some (py "  Test Paper ")) None
                           (Some [AuthorOther; AuthorRecord record_correspond])
                           (Some None))
              (mkPaper (py "12345") (py "Test Paper") (mkDate 1900 1 1)
                       [parse_author ACADEMIC_KEYWORDS COMPANY_KEYWORDS record_correspond]
                       None)
              eq_refl) as (_ & _ & _ & L & _ & _ & A & _).
  split; [exact L | exact A].
Defined.

Lemma parse_item_length
    (ACADEMIC COMPANY : list str) (strptime_ : str -> str -> option date)
    (item : str * result_value) :
  List.length (parse_item ACADEMIC COMPANY strptime_ item) <= 1.
Proof.
  destruct item as [uid v]. unfold parse_item.
  destruct (PyStr.str_eqb uid (py "uids")); [simpl; lia|].
  destruct (parse_result_value ACADEMIC COMPANY strptime_ v); simpl; lia.
Qed.

Lemma parse_search_results_in
    (ACADEMIC COMPANY : list str) (strptime_ : str -> str -> option date)
    (items : list (str * result_value)) (p : Paper) :
  In p (parse_search_results ACADEMIC COMPANY strptime_ (Some items))
  <-> exists uid d,
        In (uid, ResultRecord d) items
        /\ uid <> py "uids"
        /\ parse_paper ACADEMIC COMPANY strptime_ d = Some p.
Proof.
  unfold parse_search_results. rewrite in_flat_map. split.
  - intros ([uid v] & Hin & Hp). unfold parse_item in Hp.
    destruct (PyStr.str_eqb uid (py "uids")) eqn:U; [contradiction|].
    destruct v as [d|]; cbn [parse_result_value] in Hp; [|contradiction].
    destruct (parse_paper ACADEMIC COMPANY strptime_ d) as [q|] eqn:P; [|contradiction].
    destruct Hp as [<- | []]. exists uid, d. repeat split; try assumption.
    intros ->. rewrite (proj2 (SplitFacts.str_eqb_eq _ _) eq_refl) in U. discriminate.
  - intros (uid & d & Hin & Hu & Hp). exists (uid, ResultRecord d). split; [assumption|].
    unfold parse_item.
    destruct (PyStr.str_eqb uid (py "uids")) eqn:U.
    + apply SplitFacts.str_eqb_eq in U. contradiction.
    + cbn [parse_result_value]. rewrite Hp. now left.
Qed.

(** X15: [parse_search_results] returns nothing for a response without
    the key "result"; otherwise it returns at most one paper per item,
    and exactly the papers that [parse_paper] makes of the dictionaries
    stored under a key other than "uids". *)
Theorem X15_parse_search_results
    (ACADEMIC COMPANY : list str) (strptime_ : str -> str -> option date) :
  parse_search_results ACADEMIC COMPANY strptime_ None = []
  /\ forall items,
       List.length (parse_search_results ACADEMIC COMPANY strptime_ (Some items))
       <= List.length items
       /\ forall p,
            In p (parse_search_results ACADEMIC COMPANY strptime_ (Some items))
            <-> exists uid d,
                  In (uid, ResultRecord d) items
                  /\ uid <> py "uids"
                  /\ parse_paper ACADEMIC COMPANY strptime_ d = Some p.
Proof.
  split; [reflexivity|]. intros items. split; [|apply parse_search_results_in].
  unfold parse_search_results. induction items as [|item items IH]; simpl; [lia|].
  rewrite length_app.
  pose proof (parse_item_length ACADEMIC COMPANY strptime_ item). lia.
Qed.

(** X16: whatever [fetch_details] answers, every paper that
    [process_papers] returns has a non-empty identifier, a non-empty
    title without whitespace at its ends, and authors with non-empty
    names; and for an empty list of identifiers nothing is returned,
    [fetch_details] not being asked. *)
Theorem X16_process_papers
    (ACADEMIC COMPANY : list str) (strptime_ : str -> str -> option date)
    (fetch_details : list str -> api_response) :
  process_papers ACADEMIC COMPANY strptime_ fetch_details [] = []
  /\ forall pmids p,
       In p (process_papers ACADEMIC COMPANY strptime_ fetch_details pmids) ->
       pubmed_id p <> [] /\ title p <> [] /\ trimmed (title p)
       /\ forall a, In a (authors p) -> name a <> [].
Proof.
  split; [reflexivity|]. intros pmids p H. unfold process_papers in H.
  destruct pmids as [|x pmids]; [contradiction|].
  destruct (fetch_details (x :: pmids)) as [items|]; [|contradiction].
  apply parse_search_results_in in H. destruct H as (uid & d & _ & _ & Hp).
  destruct (parse_paper_invariants ACADEMIC COMPANY strptime_ d p Hp)
    as (I1 & I2 & I3 & I5).
  auto.
Qed.

Lemma X16_witness :
  pubmed_id (mkPaper (py "12345") (py "Test Paper") (mkDate 1900 1 1) [] (Some empty_str))
  <> []
  /\ title (mkPaper (py "12345") (py "Test Paper") (mkDate 1900 1 1) [] (Some empty_str))
     <> [].
Proof.
  destruct (proj2 (X16_process_papers ACADEMIC_KEYWORDS COMPANY_KEYWORDS Strptime.strptime
                     (fun _ => Some [(py "uids", ResultOther);
                                     (py "12345", ResultRecord record_2023_jun_15)]))
              [py "12345"]
              (mkPaper (py "12345") (py "Test Paper") (mkDate 1900 1 1) []
                       (Some empty_str))
              (or_introl eq_refl)) as (H1 & H2 & _).
  split; assumption.
Defined.

(* ================================================================== *)
(** ** Dates written and read back *)

Module DateFacts.
Import Strptime.

Lemma digit_char_digit (k : Z) :
  is_digit (digit_char k) = true /\ digit (digit_char k) = (k mod 10)%Z.
Proof.
  unfold digit_char. pose proof (Z.mod_pos_bound k 10 ltac:(lia)) as B.
  remember (k mod 10)%Z as j eqn:Ej. clear Ej.
  assert (E : (j = 0 \/ j = 1 \/ j = 2 \/ j = 3 \/ j = 4 \/ j = 5 \/ j = 6 \/ j = 7
               \/ j = 8 \/ j = 9)%Z) by lia.
  repeat (destruct E as [-> | E]; [split; reflexivity|]).
  subst j. split; reflexivity.
Qed.

Lemma match_year_pad4 (y : Z) (rest : str) :
  (0 <= y <= 9999)%Z ->
  match_year (pad4 y ++ "-"%char :: rest) = Some (y, rest).
Proof.
  intros Hy. unfold pad4, match_year. cbn [app].
  destruct (digit_char_digit (y / 1000)) as [-> ->].
  destruct (digit_char_digit (y / 100)) as [-> ->].
  destruct (digit_char_digit (y / 10)) as [-> ->].
  destruct (digit_char_digit y) as [-> ->].
  cbn [andb]. unfold is_char. rewrite Ascii.eqb_refl.
  f_equal. f_equal. Z.div_mod_to_equations. lia.
Qed.

Lemma match_month_pad2 (m : Z) (rest : str) :
  (1 <= m <= 12)%Z ->
  match_month (pad2 m ++ "-"%char :: rest) = Some (m, rest).
Proof.
  intros Hm.
  assert (E : (m = 1 \/ m = 2 \/ m = 3 \/ m = 4 \/ m = 5 \/ m = 6 \/ m = 7 \/ m = 8
               \/ m = 9 \/ m = 10 \/ m = 11 \/ m = 12)%Z) by lia.
  repeat (destruct E as [-> | E]; [reflexivity|]).
  subst m. reflexivity.
Qed.

Lemma match_day_pad2 (d : Z) :
  (1 <= d <= 31)%Z -> match_day (pad2 d) = Some d.
Proof.
  intros Hd.
  assert (E : (d = 1 \/ d = 2 \/ d = 3 \/ d = 4 \/ d = 5 \/ d = 6 \/ d = 7 \/ d = 8
               \/ d = 9 \/ d = 10 \/ d = 11 \/ d = 12 \/ d = 13 \/ d = 14 \/ d = 15
               \/ d = 16 \/ d = 17 \/ d = 18 \/ d = 19 \/ d = 20 \/ d = 21 \/ d = 22
               \/ d = 23 \/ d = 24 \/ d = 25 \/ d = 26 \/ d = 27 \/ d = 28 \/ d = 29
               \/ d = 30 \/ d = 31)%Z) by lia.
  repeat (destruct E as [-> | E]; [reflexivity|]).
  subst d. reflexivity.
Qed.

Lemma days_in_month_le (y m : Z) : (days_in_month y m <= 31)%Z.
Proof.
  unfold days_in_month.
  destruct (m =? 2)%Z; [destruct (is_leap y); lia|].
  destruct ((m =? 4) || (m =? 6) || (m =? 9) || (m =? 11))%Z; lia.
Qed.

(** A date of the calendar. *)
Lemma make_date_some (y m d : Z) (dt : date) :
  make_date y m d = Some dt ->
  dt = mkDate y m d
  /\ (1 <= y)%Z /\ (1 <= m <= 12)%Z /\ (1 <= d <= 31)%Z.
Proof.
  unfold make_date.
  destruct ((1 <=? y) && (1 <=? m) && (m <=? 12) && (1 <=? d)
            && (d <=? days_in_month y m))%Z eqn:E; [|discriminate].
  intros H. injection H as <-.
  repeat (apply andb_true_iff in E; destruct E as [E ?]).
  pose proof (days_in_month_le y m). split; [reflexivity|]. lia.
Qed.

(** The text of a date in ISO format is read back as that date. *)
Lemma strptime_isoformat (y m d : Z) (dt : date) :
  make_date y m d = Some dt -> (y <= 9999)%Z ->
  strptime (isoformat dt) (py "%Y-%m-%d") = Some dt.
Proof.
  intros H Hy. destruct (make_date_some y m d dt H) as (E & Y & M & D).
  unfold strptime.
  change (PyStr.str_eqb (py "%Y-%m-%d") (py "%Y-%m-%d")) with true. cbv iota.
  rewrite E. unfold isoformat, parse_with. cbn [year month day].
  change (pad4 y ++ py "-" ++ pad2 m ++ py "-" ++ pad2 d)
    with (pad4 y ++ "-"%char :: (pad2 m ++ "-"%char :: pad2 d)).
  rewrite match_year_pad4 by lia.
  rewrite match_month_pad2 by lia.
  rewrite match_day_pad2 by lia.
  now rewrite <- E.
Qed.

(** A text that begins with a dash is in neither format. *)
Lemma strptime_dash (rest format : str) :
  strptime ("-"%char :: rest) format = None.
Proof.
  assert (Y : match_year ("-"%char :: rest) = None).
  { unfold match_year. destruct rest as [|b [|c [|d [|e rest]]]]; reflexivity. }
  unfold strptime, parse_with. rewrite Y.
  destruct (PyStr.str_eqb format (py "%Y-%m-%d")); [reflexivity|].
  destruct (PyStr.str_eqb format (py "%Y-%b-%d")); reflexivity.
Qed.

End DateFacts.

(* ================================================================== *)
(** ** Properties of fetcher.py and api.py *)

(** X17: [save_results_to_csv] writes nothing, not even the header, for
    an empty list of papers; otherwise it writes the header and one row
    per paper, in order, each with the six fields of the header. *)
Theorem X17_csv_rows :
  save_results_to_csv [] = None
  /\ forall p papers,
       exists rows,
         save_results_to_csv (p :: papers) = Some (HEADERS :: rows)
         /\ rows = map csv_row (p :: papers)
         /\ List.length rows = List.length (p :: papers)
         /\ forall row, In row (HEADERS :: rows) -> List.length row = 6.
Proof.
  split; [reflexivity|]. intros p papers. exists (map csv_row (p :: papers)).
  split; [reflexivity|]. split; [reflexivity|]. split; [apply length_map|].
  intros row [<- | H]; [reflexivity|].
  apply in_map_iff in H. destruct H as (q & <- & _). reflexivity.
Qed.

(** X18: the last field of a row, the email of the corresponding author,
    is empty exactly when no author of the paper has a non-empty
    email. *)
Theorem X18_email_column (paper : Paper) :
  nth 5 (csv_row paper) empty_str = empty_str
  <-> forall a, In a (authors paper) -> has_email a = false.
Proof.
  cbn [csv_row nth]. unfold corresponding_author_email.
  change (fun author => PyStr.truthy_opt (email author)) with has_email.
  assert (S : forall (f : Author -> bool) a,
            (forall x, f x = true -> has_email x = true) ->
            List.find f (authors paper) = Some a ->
            or_empty (email a) <> empty_str
            /\ ~ (forall b, In b (authors paper) -> has_email b = false)).
  { intros f a Hf F. apply find_some in F. destruct F as [Hin Ha].
    apply Hf in Ha. split.
    - unfold or_empty. unfold has_email in Ha. rewrite Ha.
      destruct (email a) as [[|x e]|]; try discriminate.
    - intros N. rewrite (N a Hin) in Ha. discriminate. }
  destruct (List.find (fun author => is_corresponding author
                                     && PyStr.truthy_opt (email author))
                      (authors paper)) as [a|] eqn:F1.
  - destruct (S _ a ltac:(intros x Hx; apply andb_true_iff in Hx; apply Hx) F1)
      as [N1 N2].
    split; [intros H; contradiction | intros H; contradiction].
  - destruct (List.find has_email (authors paper)) as [a|] eqn:F2.
    + destruct (S has_email a ltac:(auto) F2) as [N1 N2].
      split; [intros H; contradiction | intros H; contradiction].
    + split; [intros _ | reflexivity]. intros a Ha. exact (find_none _ _ F2 a Ha).
Qed.

(** X19: the date that [save_results_to_csv] writes for a paper is read
    back by [parse_date] as the date of the paper, for every date of the
    calendar from year 1 to year 9999. *)
Theorem X19_date_round_trip (paper : Paper) :
  Strptime.make_date (year (publication_date paper)) (month (publication_date paper))
                     (day (publication_date paper))
  = Some (publication_date paper) ->
  (year (publication_date paper) <= 9999)%Z ->
  parse_date Strptime.strptime (nth 2 (csv_row paper) empty_str)
  = publication_date paper.
Proof.
  intros H Hy. cbn [csv_row nth]. unfold parse_date.
  now rewrite (DateFacts.strptime_isoformat _ _ _ _ H Hy).
Qed.

Lemma X19_witness :
  parse_date Strptime.strptime (nth 2 (csv_row test_paper) empty_str)
  = publication_date test_paper.
Proof.
  apply (X19_date_round_trip test_paper); [reflexivity | vm_compute; discriminate].
Defined.

(** X20: [search] does not look at the query; it returns a prefix of the
    ten fixed identifiers: the first [max_results] of them, all ten when
    [max_results] is larger, and for a negative [max_results] all but the
    last [-max_results]. *)
Theorem X20_search (query query' : str) (max_results : Z) :
  search query max_results = search query' max_results
  /\ (exists rest, test_pmids = search query max_results ++ rest)
  /\ Z.of_nat (List.length (search query max_results))
     = (if (0 <=? max_results)%Z then Z.min max_results 10
        else Z.max 0 (10 + max_results))%Z.
Proof.
  split; [reflexivity|]. unfold search, slice_to.
  change (Z.of_nat (List.length test_pmids)) with 10%Z.
  destruct (Z.leb_spec 0 max_results) as [H | H].
  - split.
    + exists (skipn (Z.to_nat max_results) test_pmids). symmetry. apply firstn_skipn.
    + rewrite length_firstn. change (List.length test_pmids) with 10%nat. lia.
  - split.
    + exists (skipn (Z.to_nat (10 + max_results)) test_pmids). symmetry.
      apply firstn_skipn.
    + rewrite length_firstn. change (List.length test_pmids) with 10%nat. lia.
Qed.

(** X21: [fetch_and_save] writes nothing, not even the header, when
    [max_results] is 0 or at most -10, and when [fetch_details] answers
    without the key "result" or with an empty "result". *)
Theorem X21_nothing_to_save
    (ACADEMIC COMPANY : list str) (strptime_ : str -> str -> option date)
    (fetch_details : list str -> api_response) (query : str) (max_results : Z) :
  max_results = 0%Z \/ (max_results <= -10)%Z
  \/ fetch_details (search query max_results) = None
  \/ fetch_details (search query max_results) = Some [] ->
  fetch_and_save ACADEMIC COMPANY strptime_ fetch_details query max_results = None.
Proof.
  unfold fetch_and_save, process_papers. intros H.
  assert (S : search query max_results = []
              \/ fetch_details (search query max_results) = None
              \/ fetch_details (search query max_results) = Some []).
  { destruct H as [-> | [H | H]]; [now left | | now right].
    left. unfold search, slice_to.
    destruct (Z.leb_spec 0 max_results) as [L | L]; [lia|].
    change (Z.of_nat (List.length test_pmids)) with 10%Z.
    replace (Z.to_nat (10 + max_results)) with 0%nat by lia. reflexivity. }
  destruct S as [-> | S]; [reflexivity|].
  destruct (search query max_results) as [|x l]; [reflexivity|].
  destruct S as [-> | ->]; reflexivity.
Qed.

Lemma X21_witness :
  fetch_and_save ACADEMIC_KEYWORDS COMPANY_KEYWORDS Strptime.strptime
    (fun _ => Some [(py "12345", ResultRecord record_2023_jun_15)])
    (py "cancer immunotherapy") (-10)
  = None.
Proof.
  apply (X21_nothing_to_save ACADEMIC_KEYWORDS COMPANY_KEYWORDS Strptime.strptime
           (fun _ => Some [(py "12345", ResultRecord record_2023_jun_15)])
           (py "cancer immunotherapy") (-10)).
  right. left. lia.
Defined.

(** X22: the date text that [fetch_details] builds is read by
    [parse_date] as 1900-01-01 when the year is missing, whatever the
    month and the day; and as the first of January when only the year is
    given, with four digits. *)
Theorem X22_api_pubdate :
  (forall Month Day,
     parse_date Strptime.strptime (api_pubdate None Month Day) = mkDate 1900 1 1)
  /\ (forall y, (1 <= y <= 9999)%Z ->
        parse_date Strptime.strptime (api_pubdate (Some (pad4 y)) None None)
        = mkDate y 1 1).
Proof.
  split.
  - intros Month Day. unfold parse_date, api_pubdate. cbn [get app py list_ascii_of_string].
    now rewrite !DateFacts.strptime_dash.
  - intros y Hy. unfold parse_date, Strptime.strptime.
    change (PyStr.str_eqb (py "%Y-%m-%d") (py "%Y-%m-%d")) with true. cbv iota.
    unfold Strptime.parse_with.
    change (api_pubdate (Some (pad4 y)) None None)
      with (pad4 y ++ "-"%char :: py "1-1").
    rewrite DateFacts.match_year_pad4 by lia.
    change (Strptime.match_month (py "1-1")) with (Some (1%Z, py "1")). cbv iota beta.
    change (Strptime.match_day (py "1")) with (Some 1%Z). cbv iota.
    unfold Strptime.make_date.
    destruct (Z.leb_spec 1 y) as [_ | L]; [reflexivity | lia].
Qed.

Lemma X22_witness :
  parse_date Strptime.strptime (api_pubdate (Some (pad4 2023)) None None)
  = mkDate 2023 1 1.
Proof.
  apply (proj2 X22_api_pubdate 2023%Z). lia.
Defined.
